(** * Client-side domain entities of the annotation UI: Metadata and Record

    A shallow embedding of [frontend/v1/domain/entities/metadata/Metadata.ts]
    (the [Metadata] value object and the [Record] entity that follows it in the
    same file) and of the Cloud Run step of the deploy workflow, together with
    the properties the specification states about them. *)

From Stdlib Require Import ZArith Ascii String List Bool Lia Sorted Permutation.
From stdpp Require Import base decidable option list strings gmap functions.

Local Open Scope string_scope.

(** ** JavaScript values that may be absent

    A TypeScript position of type [A] holds, at run time, a value of [A],
    [undefined] (an optional property left out, a field never assigned) or
    [null] (what the backend's JSON sends, what [clear] assigns).  The two
    absent values are kept apart because the source tells them apart:
    [x !== null] is true of [undefined]. *)
Inductive Nullable (A : Type) : Type :=
| undefined
| null
| val (a : A).

Arguments undefined {A}.
Arguments null {A}.
Arguments val {A} a.

#[global] Instance Nullable_eq_dec {A} `{EqDecision A} : EqDecision (Nullable A).
Proof. solve_decision. Defined.

Module Js.

(** [x !== null] *)
Definition strict_ne_null {A} (x : Nullable A) : bool :=
  match x with
  | null => false
  | undefined | val _ => true
  end.

(** [x?.f]: the member [f] of [x], or [undefined] when [x] is [null] or
    [undefined]. *)
Definition opt_chain {A B} (x : Nullable A) (f : A -> Nullable B) : Nullable B :=
  match x with
  | val a => f a
  | undefined | null => undefined
  end.

(** [x ?? d]: [d] when [x] is [null] or [undefined]. *)
Definition coalesce {A} (x : Nullable A) (d : A) : A :=
  match x with
  | val a => a
  | undefined | null => d
  end.

(** [!!x] for a position that holds an object or is absent. *)
Definition truthy_object {A} (x : Nullable A) : bool :=
  match x with
  | val _ => true
  | undefined | null => false
  end.

(** [n > 0] where [n] is a length or [undefined]; [undefined > 0] is
    [false] ([undefined] converts to [NaN]). *)
Definition gt_zero (n : Nullable nat) : bool :=
  match n with
  | val k => Nat.ltb 0 k
  | undefined => false
  | null => false
  end.

(** [a === b] on strings. *)
Definition strict_eq (a b : string) : bool := String.eqb a b.

(** [xs.find(p)]: the first element satisfying [p], or [undefined]. *)
Fixpoint find {A} (p : A -> bool) (xs : list A) : Nullable A :=
  match xs with
  | [] => undefined
  | x :: rest => if p x then val x else find p rest
  end.

(** [xs.every(p)] and [xs.some(p)]. *)
Definition every {A} (p : A -> bool) (xs : list A) : bool := forallb p xs.
Definition some {A} (p : A -> bool) (xs : list A) : bool := existsb p xs.

(** [_.cloneDeep(x)]: a structurally equal value sharing nothing with [x].
    Values of the embedding are immutable, so the clone is the value. *)
Definition cloneDeep {A} (x : A) : A := x.

(** [_.isEqual(x, y)]: deep structural equality. *)
Definition isEqual {A} `{EqDecision A} (x y : A) : bool := bool_decide (x = y).

End Js.

(** ** Metadata *)

Module Metadata.
Section WithNumber.

(** The TypeScript [number] of the bounds.  [hasValues] only tests the bounds
    against [null], so the entity is kept generic in it. *)
Context {number : Type}.

(** [interface MetadataSettings]; [values], [min] and [max] are optional. *)
Record MetadataSettings : Type := {
  type : string;
  values : Nullable (list string);
  min : Nullable number;
  max : Nullable number
}.

(** [class Metadata]. *)
Record Metadata : Type := {
  id : string;
  name : string;
  title : string;
  settings : MetadataSettings
}.

Definition isTerms (this : Metadata) : bool :=
  Js.strict_eq this.(settings).(type) "terms".

Definition isInteger (this : Metadata) : bool :=
  Js.strict_eq this.(settings).(type) "integer".

Definition isFloat (this : Metadata) : bool :=
  Js.strict_eq this.(settings).(type) "float".

(** [if (this.isTerms) return this.settings.values?.length > 0;
     return this.settings.max !== null && this.settings.min !== null;] *)
Definition hasValues (this : Metadata) : bool :=
  if isTerms this then
    Js.gt_zero (Js.opt_chain this.(settings).(values) (fun vs => val (length vs)))
  else
    Js.strict_ne_null this.(settings).(max) && Js.strict_ne_null this.(settings).(min).

End WithNumber.
Arguments MetadataSettings number : clear implicits.
Arguments Metadata number : clear implicits.

(** A sample input: a metadata property of a type other than the three the
    getters name, with both bounds given. *)
Definition created_at : Metadata Z :=
  {| id := "m1"; name := "created"; title := "Created at";
     settings := {| type := "date"; values := undefined;
                    min := val 0%Z; max := val 10%Z |} |}.

End Metadata.

(** ** The collaborators of Record

    [Question], [Suggestion], [Field] and [RecordAnswer] are imported by the
    entity from sibling files that are not among the sources at hand.  The
    entity is therefore embedded over their interfaces: exactly the members
    [Record] reads or calls. *)

Module Question.

(** [Question] objects are mutable: a method is a transformer of the object's
    state, a getter a function of it.  [QuestionAnswer] is the type of the
    [answer] member, [Answer] the type of an answer value handed to
    [complete] and [forceComplete]. *)
Class Interface (Question QuestionAnswer Answer Suggestion : Type) : Type := {
  id : Question -> string;
  name : Question -> string;
  isRequired : Question -> bool;
  isAnswered : Question -> bool;
  hasValidValues : Question -> bool;
  answer : Question -> QuestionAnswer;
  isValid : QuestionAnswer -> bool;
  isPartiallyValid : QuestionAnswer -> bool;
  clearAnswer : Question -> Question;
  complete : Nullable Answer -> Question -> Question;
  suggests : Nullable Suggestion -> Question -> Question;
  forceComplete : Nullable Answer -> Question -> Question
}.

End Question.

Module Suggestion.

Class Interface (Suggestion : Type) : Type := {
  questionId : Suggestion -> string
}.

End Suggestion.

Module RecordStatus.

(** Modelled from the spec: the declaration of [RecordAnswer] and of the type
    of its [status] member is missing from the sources; the glossary gives
    the record status as one of pending, submitted, discarded, draft. *)
Inductive t : Type := pending | submitted | discarded | draft.

#[global] Instance eq_dec : EqDecision t.
Proof. solve_decision. Defined.

(** The string each status is at run time; the getters of [Record] compare
    these strings. *)
Definition text (s : t) : string :=
  match s with
  | pending => "pending"
  | submitted => "submitted"
  | discarded => "discarded"
  | draft => "draft"
  end.

End RecordStatus.

Module RecordAnswer.
Section WithAnswer.
Context {Answer : Type}.

(** The members of a [RecordAnswer] that [Record] reads: [status], [value]
    (an object keyed by question name) and [updatedAt]. *)
Record t : Type := {
  status : RecordStatus.t;
  value : gmap string Answer;
  updatedAt : Nullable string
}.

#[global] Instance eq_dec `{EqDecision Answer} : EqDecision t.
Proof. solve_decision. Defined.

(** [answer.value[key]]: [undefined] when the object has no such key (the
    object is read by its own keys). *)
Definition value_at (a : t) (key : string) : Nullable Answer :=
  match a.(value) !! key with
  | Some v => val v
  | None => undefined
  end.

End WithAnswer.
Arguments t Answer : clear implicits.
End RecordAnswer.

(** ** Record

    [class Record] (the name is a keyword here, hence [RecordEntity]).

    The [questions] array holds references to [Question] objects which the
    entity mutates in place and which the user interface edits through the
    same references.  Object identity is a [ref]; the objects live in a
    [heap] from references to object states (a reference is never dangling
    in JavaScript, so the heap is total).  Everything else the entity holds
    is data it never mutates in place and is embedded by value. *)

Module RecordEntity.

Definition DEFAULT_STATUS : string := "pending".

Definition ref : Type := nat.

#[global] Instance ref_eq_dec : EqDecision ref.
Proof. unfold ref. apply _. Defined.

Section WithCollaborators.

Context {Question QuestionAnswer Answer Suggestion Field : Type}.
Context `{!Question.Interface Question QuestionAnswer Answer Suggestion}.
Context `{!Suggestion.Interface Suggestion}.
Context `{EqDecision Question, EqDecision Answer, EqDecision Suggestion,
          EqDecision Field}.

(** The object [rest] of [const { original, ...rest } = this]: the own
    properties of the record except [original].  Read as a value (as
    [cloneDeep] and [isEqual] read it), its [questions] are the states of the
    referenced objects. *)
Record Rest : Type := {
  rest_id : string;
  rest_datasetId : string;
  rest_questions : list Question;
  rest_fields : list Field;
  rest_answer : Nullable (RecordAnswer.t Answer);
  rest_suggestions : Nullable (list Suggestion);
  rest_page : Z;
  rest_updatedAt : Nullable string
}.

#[global] Instance Rest_eq_dec : EqDecision Rest.
Proof. solve_decision. Defined.

(** The own properties of a [Record] object.  [original] is declared and
    never assigned by the constructor: it is [undefined] until [initialize]
    runs. *)
Record Instance : Type := {
  original : Nullable Rest;
  updatedAt : Nullable string;
  id : string;
  datasetId : string;
  questions : list ref;
  fields : list Field;
  answer : Nullable (RecordAnswer.t Answer);
  suggestions : Nullable (list Suggestion);
  page : Z
}.

(** A program state: the [Question] objects and the record [this]. *)
Record State : Type := {
  heap : ref -> Question;
  this : Instance
}.

(** Assignments to the three properties the methods write. *)
Definition set_answer (a : Nullable (RecordAnswer.t Answer)) (r : Instance) : Instance :=
  {| original := r.(original); updatedAt := r.(updatedAt); id := r.(id);
     datasetId := r.(datasetId); questions := r.(questions); fields := r.(fields);
     answer := a; suggestions := r.(suggestions); page := r.(page) |}.

Definition set_updatedAt (u : Nullable string) (r : Instance) : Instance :=
  {| original := r.(original); updatedAt := u; id := r.(id);
     datasetId := r.(datasetId); questions := r.(questions); fields := r.(fields);
     answer := r.(answer); suggestions := r.(suggestions); page := r.(page) |}.

Definition set_original (o : Nullable Rest) (r : Instance) : Instance :=
  {| original := o; updatedAt := r.(updatedAt); id := r.(id);
     datasetId := r.(datasetId); questions := r.(questions); fields := r.(fields);
     answer := r.(answer); suggestions := r.(suggestions); page := r.(page) |}.

(** [this.answer?.status ?? DEFAULT_STATUS] *)
Definition status (r : Instance) : string :=
  Js.coalesce
    (Js.opt_chain r.(answer) (fun a => val (RecordStatus.text a.(RecordAnswer.status))))
    DEFAULT_STATUS.

Definition isPending (r : Instance) : bool := Js.strict_eq (status r) DEFAULT_STATUS.
Definition isSubmitted (r : Instance) : bool := Js.strict_eq (status r) "submitted".
Definition isDiscarded (r : Instance) : bool := Js.strict_eq (status r) "discarded".
Definition isDraft (r : Instance) : bool := Js.strict_eq (status r) "draft".

(** [const { original, ...rest } = this] *)
Definition rest_of (s : State) : Rest :=
  {| rest_id := s.(this).(id);
     rest_datasetId := s.(this).(datasetId);
     rest_questions := map s.(heap) s.(this).(questions);
     rest_fields := s.(this).(fields);
     rest_answer := s.(this).(answer);
     rest_suggestions := s.(this).(suggestions);
     rest_page := s.(this).(page);
     rest_updatedAt := s.(this).(updatedAt) |}.

(** [return !!original && !isEqual(original, rest);] *)
Definition isModified (s : State) : bool :=
  let original := s.(this).(original) in
  let rest := rest_of s in
  Js.truthy_object original && negb (Js.isEqual original (val rest)).

(** The body of the callback of [completeQuestion], as a transformer of the
    visited [question] object. *)
Definition completeOne (r : Instance) (question : Question) : Question :=
  let answerForQuestion :=
    Js.opt_chain r.(answer) (fun a => RecordAnswer.value_at a (Question.name question)) in
  if isPending r || isDraft r then
    let question := Question.complete answerForQuestion question in
    let suggestion :=
      Js.opt_chain r.(suggestions) (fun l =>
        Js.find (fun s => Js.strict_eq (Suggestion.questionId s) (Question.id question)) l) in
    Question.suggests suggestion question
  else
    Question.forceComplete answerForQuestion question.

(** [this.questions.map((question) => { ...; return question; })]: the
    callback runs on each referenced object in array order; the array it
    returns is dropped by both callers. *)
Definition completeQuestion (s : State) : State :=
  {| heap := foldl (fun h q => alter (completeOne s.(this)) q h) s.(heap) s.(this).(questions);
     this := s.(this) |}.

(** [initialize()] *)
Definition initialize (s : State) : State :=
  let s := completeQuestion s in
  let rest := rest_of s in
  {| heap := s.(heap); this := set_original (val (Js.cloneDeep rest)) s.(this) |}.

(** [discard(answer)]; [answer.updatedAt] is read without [?.], the argument
    is a [RecordAnswer] object. *)
Definition discard (a : RecordAnswer.t Answer) (s : State) : State :=
  let s := {| heap := s.(heap); this := set_answer (val a) s.(this) |} in
  let s := {| heap := s.(heap); this := set_updatedAt a.(RecordAnswer.updatedAt) s.(this) |} in
  initialize s.

(** [submit(answer)], the same statements as [discard]. *)
Definition submit (a : RecordAnswer.t Answer) (s : State) : State :=
  let s := {| heap := s.(heap); this := set_answer (val a) s.(this) |} in
  let s := {| heap := s.(heap); this := set_updatedAt a.(RecordAnswer.updatedAt) s.(this) |} in
  initialize s.

(** [clear()] *)
Definition clear (s : State) : State :=
  let s := {| heap := foldl (fun h q => alter Question.clearAnswer q h) s.(heap) s.(this).(questions);
              this := s.(this) |} in
  let s := {| heap := s.(heap); this := set_answer null s.(this) |} in
  initialize s.

(** [new Record(id, datasetId, questions, fields, answer, suggestions, page)]:
    the parameter properties are assigned, then the body runs. *)
Definition new (id datasetId : string) (questions : list ref) (fields : list Field)
    (answer : Nullable (RecordAnswer.t Answer)) (suggestions : Nullable (list Suggestion))
    (page : Z) (h : ref -> Question) : State :=
  let s := {| heap := h;
              this := {| original := undefined; updatedAt := undefined; id := id;
                         datasetId := datasetId; questions := questions; fields := fields;
                         answer := answer; suggestions := suggestions; page := page |} |} in
  let s := completeQuestion s in
  {| heap := s.(heap);
     this := set_updatedAt (Js.opt_chain answer RecordAnswer.updatedAt) s.(this) |}.

(** [get hasAnyQuestionAnswered()] *)
Definition hasAnyQuestionAnswered (s : State) : bool :=
  Js.some
    (fun question =>
       Question.isValid (Question.answer question)
       || Question.isPartiallyValid (Question.answer question))
    (map s.(heap) s.(this).(questions)).

(** [questionAreCompletedCorrectly()] *)
Definition questionAreCompletedCorrectly (s : State) : bool :=
  let questions := map s.(heap) s.(this).(questions) in
  let requiredQuestionsAreCompletedCorrectly :=
    Js.every (fun input => Question.isAnswered input)
      (List.filter (fun input => Question.isRequired input) questions) in
  let optionalQuestionsCompletedAreCorrectlyEntered :=
    Js.every (fun input => Question.hasValidValues input)
      (List.filter (fun input => negb (Question.isRequired input)) questions) in
  requiredQuestionsAreCompletedCorrectly && optionalQuestionsCompletedAreCorrectlyEntered.

(** The calls that end by taking a snapshot, as data, for the statements that
    range over them. *)
Inductive Call : Type :=
| Initialize
| Discard (a : RecordAnswer.t Answer)
| Submit (a : RecordAnswer.t Answer)
| Clear.

Definition call (c : Call) (s : State) : State :=
  match c with
  | Initialize => initialize s
  | Discard a => discard a s
  | Submit a => submit a s
  | Clear => clear s
  end.

(** The user interface (or anything else holding the references) leaves the
    objects in the states [h]; the record object itself is untouched. *)
Definition edited (h : ref -> Question) (s : State) : State :=
  {| heap := h; this := s.(this) |}.

(** How often the [questions] array refers to the object [q]. *)
Definition occurrences (q : ref) (s : State) : nat :=
  count_occ Nat.eq_dec s.(this).(questions) q.

End WithCollaborators.

Arguments Rest Question Answer Suggestion Field : clear implicits.
Arguments Instance Question Answer Suggestion Field : clear implicits.
Arguments State Question Answer Suggestion Field : clear implicits.
Arguments Call Answer : clear implicits.

End RecordEntity.

(** ** The deploy workflow

    The job [deploy] of the workflow "Deploy Argilla environment", as data.
    A value of a [with:] block is text with [${{ ... }}] expressions in it;
    the runner replaces each expression by its value in the run's context
    before the action starts. *)

Module DeployWorkflow.

Inductive Piece : Type :=
| Text (s : string)
| Input (name : string)                  (* ${{ inputs.<name> }} *)
| Secret (name : string)                 (* ${{ secrets.<name> }} *)
| StepOutput (step output : string).     (* ${{ steps.<step>.outputs.<output> }} *)

Definition Template : Type := list Piece.

(** The context of one run of the workflow. *)
Record Context : Type := {
  inputs : string -> string;
  secrets : string -> string;
  steps_outputs : string -> string -> string
}.

Definition eval (c : Context) (p : Piece) : string :=
  match p with
  | Text s => s
  | Input n => c.(inputs) n
  | Secret n => c.(secrets) n
  | StepOutput s o => c.(steps_outputs) s o
  end.

Definition expand (c : Context) (t : Template) : string :=
  fold_right (fun p acc => eval c p ++ acc) "" t.

(** A step that [uses:] an action.  [condition] is the step's [if:],
    [inputs_with] the scalar entries of its [with:], [env_vars] the lines
    [KEY=value] of the [env_vars] block of its [with:], [env] its [env:]. *)
Record Step : Type := {
  name : string;
  id : option string;
  condition : option string;
  uses : string;
  inputs_with : list (string * Template);
  env_vars : list (string * Template);
  env : list (string * Template)
}.

Definition checkout : Step :=
  {| name := ""; id := None; condition := None;
     uses := "actions/checkout@v3";
     inputs_with := []; env_vars := []; env := [] |}.

Definition authenticate_to_google_cloud : Step :=
  {| name := "Authenticate to Google Cloud"; id := None; condition := None;
     uses := "google-github-actions/auth@v1";
     inputs_with :=
       [("workload_identity_provider", [Secret "GOOGLE_CLOUD_WIP"]);
        ("service_account", [Secret "GOOGLE_CLOUD_SERVICE_ACCOUNT"])];
     env_vars := []; env := [] |}.

(** Its outputs [owner], [admin] and [annotator] are the generated
    credentials. *)
Definition generate_credentials : Step :=
  {| name := "Generate credentials"; id := Some "credentials"; condition := None;
     uses := "./.github/actions/generate-credentials";
     inputs_with := []; env_vars := [];
     env := [("ENVIRONMENT_CREDENTIALS_SECRET", [Secret "ENVIRONMENT_CREDENTIALS_SECRET"])] |}.

Definition deploy_in_cloud_run : Step :=
  {| name := "Deploy in Cloud Run"; id := Some "deploy"; condition := None;
     uses := "google-github-actions/deploy-cloudrun@v1";
     inputs_with :=
       [("service", [Text "argilla-quickstart-"; Input "image-version"]);
        ("image", [Text "europe-docker.pkg.dev/argilla-ci/"; Input "image-name";
                   Text ":"; Input "image-version"]);
        ("region", [Text "europe-southwest1"]);
        ("flags", [Text "--min-instances=1 --max-instances=1 --port=6900 --cpu=2000m --memory=2048Mi --no-cpu-throttling --allow-unauthenticated"])];
     env_vars :=
       [("OWNER_PASSWORD", [StepOutput "credentials" "owner"]);
        ("OWNER_API_KEY", [StepOutput "credentials" "owner"]);
        ("ADMIN_PASSWORD", [StepOutput "credentials" "admin"]);
        ("ADMIN_API_KEY", [StepOutput "credentials" "admin"]);
        ("ANNOTATOR_PASSWORD", [StepOutput "credentials" "annotator"]);
        ("ANNOTATOR_API_KEY", [StepOutput "credentials" "annotator"]);
        ("ARGILLA_ENABLE_TELEMETRY", [Text "0"])];
     env := [] |}.

Definition post_credentials_in_slack : Step :=
  {| name := "Post credentials in Slack"; id := None; condition := None;
     uses := "./.github/actions/slack-post-credentials";
     inputs_with :=
       [("slack-channel-name", [Text "argilla-github"]);
        ("url", [StepOutput "deploy" "url"]);
        ("owner", [StepOutput "credentials" "owner"]);
        ("admin", [StepOutput "credentials" "admin"]);
        ("annotator", [StepOutput "credentials" "annotator"])];
     env_vars := [];
     env := [("SLACK_BOT_TOKEN", [Secret "SLACK_BOT_TOKEN"])] |}.

(** The line break (the character of code 10). *)
Definition line_break : string := String (Ascii.ascii_of_nat 10) EmptyString.

(** [message: |] is a literal block scalar: its value is its one line
    followed by a line break. *)
Definition comment_pr_with_cloud_run_url : Step :=
  {| name := "Comment PR with Cloud Run URL"; id := None; condition := None;
     uses := "thollander/actions-comment-pull-request@v2";
     inputs_with :=
       [("message", [Text "The URL of the deployed environment for this PR is ";
                     StepOutput "deploy" "url"; Text line_break]);
        ("comment_tag", [Text "cloud_run_url"]);
        ("reactions", [Text "rocket"])];
     env_vars := []; env := [] |}.

(** The steps of the job [deploy], in order. *)
Definition deploy : list Step :=
  [checkout; authenticate_to_google_cloud; generate_credentials;
   deploy_in_cloud_run; post_credentials_in_slack; comment_pr_with_cloud_run_url].

(** The first step of a job with a given [name:]. *)
Fixpoint step_named (n : string) (job : list Step) : option Step :=
  match job with
  | [] => None
  | s :: rest => if String.eqb s.(name) n then Some s else step_named n rest
  end.

(** The steps that run before the first step named [n]. *)
Fixpoint steps_before (n : string) (job : list Step) : list Step :=
  match job with
  | [] => []
  | s :: rest => if String.eqb s.(name) n then [] else s :: steps_before n rest
  end.

(** The entry [key] of a [with:] block. *)
Fixpoint input (key : string) (entries : list (string * Template)) : Template :=
  match entries with
  | [] => []
  | (k, t) :: rest => if String.eqb k key then t else input key rest
  end.

(** The blank-separated words of a command line. *)
Fixpoint words_from (current : string) (s : string) : list string :=
  match s with
  | EmptyString => if String.eqb current "" then [] else [current]
  | String c rest =>
      if Ascii.eqb c " "%char then
        (if String.eqb current "" then [] else [current]) ++ words_from "" rest
      else words_from (current ++ String c "") rest
  end.

Definition words (s : string) : list string := words_from "" s.

(** The flags the step passes in a run, and the environment it sets on the
    deployed service. *)
Definition flags_passed (c : Context) (s : Step) : list string :=
  words (expand c (input "flags" s.(inputs_with))).

Definition environment (c : Context) (s : Step) : list (string * string) :=
  map (fun kv => (fst kv, expand c (snd kv))) s.(env_vars).

Fixpoint env_lookup (key : string) (env : list (string * string)) : option string :=
  match env with
  | [] => None
  | (k, v) :: rest => if String.eqb k key then Some v else env_lookup key rest
  end.

End DeployWorkflow.

(** ** A test double for the collaborators

    Concrete stand-ins on which the entity can be run: a question that keeps
    the members [Record] reads and the list of the calls it received, in
    order, and a suggestion that is a question id with a value.  They are
    used for examples only; every general statement below is about an
    arbitrary implementation of the interfaces. *)

Module Double.

Record suggestion : Type := {
  questionId : string;
  suggested : string
}.

#[global] Instance suggestion_eq_dec : EqDecision suggestion.
Proof. solve_decision. Defined.

Inductive Call : Type :=
| ClearAnswer
| Complete (a : Nullable string)
| Suggests (s : Nullable suggestion)
| ForceComplete (a : Nullable string).

#[global] Instance Call_eq_dec : EqDecision Call.
Proof. solve_decision. Defined.

Record question : Type := {
  id : string;
  name : string;
  isRequired : bool;
  isAnswered : bool;
  hasValidValues : bool;
  answer : Nullable string;
  calls : list Call
}.

#[global] Instance question_eq_dec : EqDecision question.
Proof. solve_decision. Defined.

Definition called (c : Call) (q : question) : question :=
  {| id := q.(id); name := q.(name); isRequired := q.(isRequired);
     isAnswered := q.(isAnswered); hasValidValues := q.(hasValidValues);
     answer := q.(answer); calls := q.(calls) ++ [c] |}.

(** What the user interface does when the annotator edits the answer. *)
Definition edit (a : Nullable string) (q : question) : question :=
  {| id := q.(id); name := q.(name); isRequired := q.(isRequired);
     isAnswered := q.(isAnswered); hasValidValues := q.(hasValidValues);
     answer := a; calls := q.(calls) |}.

#[global] Instance question_interface :
  Question.Interface question (Nullable string) string suggestion :=
  {| Question.id := id;
     Question.name := name;
     Question.isRequired := isRequired;
     Question.isAnswered := isAnswered;
     Question.hasValidValues := hasValidValues;
     Question.answer := answer;
     Question.isValid := Js.truthy_object;
     Question.isPartiallyValid := fun _ => false;
     Question.clearAnswer := called ClearAnswer;
     Question.complete := fun a => called (Complete a);
     Question.suggests := fun s => called (Suggests s);
     Question.forceComplete := fun a => called (ForceComplete a) |}.

#[global] Instance suggestion_interface : Suggestion.Interface suggestion :=
  {| Suggestion.questionId := questionId |}.

(** A question that has received no call yet. *)
Definition fresh (id name : string) (required : bool) : question :=
  {| id := id; name := name; isRequired := required; isAnswered := false;
     hasValidValues := true; answer := undefined; calls := [] |}.

(** Two question objects, [0 ↦ q1] (required) and every other reference
    [↦ q2] (optional). *)
Definition objects : RecordEntity.ref -> question :=
  fun r => match r with
           | O => fresh "id-1" "q1" true
           | _ => fresh "id-2" "q2" false
           end.

Definition suggestion_for_q1 : suggestion :=
  {| questionId := "id-1"; suggested := "yes" |}.

Definition answered (s : RecordStatus.t) : RecordAnswer.t string :=
  {| RecordAnswer.status := s;
     RecordAnswer.value := {[ "q1" := "no" ]};
     RecordAnswer.updatedAt := val "2023-10-01" |}.

(** [new Record("r", "d", [q1], [], answer, [suggestion_for_q1], 0)] *)
Definition record_with (a : Nullable (RecordAnswer.t string)) :
    RecordEntity.State question string suggestion string :=
  RecordEntity.new "r" "d" [0] [] a (val [suggestion_for_q1]) 0%Z objects.

(** The record right after construction, with no answer. *)
Definition constructed : RecordEntity.State question string suggestion string :=
  record_with null.

(** The annotator types an answer into the first question. *)
Definition typed (s : RecordEntity.State question string suggestion string) :
    RecordEntity.State question string suggestion string :=
  RecordEntity.edited (alter (edit (val "maybe")) 0 (RecordEntity.heap s)) s.

(** A submitted record, as the backend returns it. *)
Definition constructed_submitted : RecordEntity.State question string suggestion string :=
  record_with (val (answered RecordStatus.submitted)).

(** [new Record("r", "d", [], [], null, undefined, 0)] *)
Definition without_questions : RecordEntity.State question string suggestion string :=
  RecordEntity.new "r" "d" [] [] null undefined 0%Z objects.

End Double.

(** ** The statements about Record, in the words of the specification

    Two descriptions that the properties below compare the entity with. *)

Module RecordClaims.
Section WithCollaborators.

Context {Question QuestionAnswer Answer Suggestion Field : Type}.
Context `{!Question.Interface Question QuestionAnswer Answer Suggestion}.
Context `{!Suggestion.Interface Suggestion}.

(** A call that takes the answer [a] from state [s] to state [s'] sets
    [answer] and [updatedAt] from [a], leaves in [original] a copy of the
    new state (the new answer and [updatedAt], the states the listed
    questions are in when the call returns, and every other property as the
    record has it), and leaves [id], [datasetId], [fields] and [page]
    alone. *)
Definition answers_and_resnapshots (a : RecordAnswer.t Answer)
    (s s' : RecordEntity.State Question Answer Suggestion Field) : Prop :=
  RecordEntity.answer (RecordEntity.this s') = val a
  /\ RecordEntity.updatedAt (RecordEntity.this s') = a.(RecordAnswer.updatedAt)
  /\ RecordEntity.original (RecordEntity.this s')
     = val {| RecordEntity.rest_id := RecordEntity.id (RecordEntity.this s');
              RecordEntity.rest_datasetId := RecordEntity.datasetId (RecordEntity.this s');
              RecordEntity.rest_questions :=
                map (RecordEntity.heap s') (RecordEntity.questions (RecordEntity.this s'));
              RecordEntity.rest_fields := RecordEntity.fields (RecordEntity.this s');
              RecordEntity.rest_answer := val a;
              RecordEntity.rest_suggestions :=
                RecordEntity.suggestions (RecordEntity.this s');
              RecordEntity.rest_page := RecordEntity.page (RecordEntity.this s');
              RecordEntity.rest_updatedAt := a.(RecordAnswer.updatedAt) |}
  /\ RecordEntity.id (RecordEntity.this s') = RecordEntity.id (RecordEntity.this s)
  /\ RecordEntity.datasetId (RecordEntity.this s')
     = RecordEntity.datasetId (RecordEntity.this s)
  /\ RecordEntity.fields (RecordEntity.this s') = RecordEntity.fields (RecordEntity.this s)
  /\ RecordEntity.page (RecordEntity.this s') = RecordEntity.page (RecordEntity.this s).

(** The answer value of a question: the entry of the record answer's value
    under the question's name, [undefined] without a record answer. *)
Definition answer_value (answer : Nullable (RecordAnswer.t Answer))
    (question : Question) : Nullable Answer :=
  match answer with
  | val a => RecordAnswer.value_at a (Question.name question)
  | null | undefined => undefined
  end.

(** The suggestion of a question: the first of the suggestions whose
    [questionId] is the question's id, [undefined] when there is none or no
    list of suggestions. *)
Definition suggestion_of (suggestions : Nullable (list Suggestion))
    (question : Question) : Nullable Suggestion :=
  match suggestions with
  | val l =>
      Js.find (fun s => Js.strict_eq (Suggestion.questionId s) (Question.id question)) l
  | null | undefined => undefined
  end.

(** Rehydrating a question with its answer value and its suggestion. *)
Definition rehydrate_with_suggestion (answer : Nullable (RecordAnswer.t Answer))
    (suggestions : Nullable (list Suggestion)) (question : Question) : Question :=
  let completed := Question.complete (answer_value answer question) question in
  Question.suggests (suggestion_of suggestions completed) completed.

(** Rehydrating a question by the status of the record: with its answer value
    and its suggestion while the record is pending or a draft, with its
    answer value alone, forced, once the record is submitted or discarded. *)
Definition rehydrate (answer : Nullable (RecordAnswer.t Answer))
    (suggestions : Nullable (list Suggestion)) (question : Question) : Question :=
  match answer with
  | val a =>
      match a.(RecordAnswer.status) with
      | RecordStatus.pending | RecordStatus.draft =>
          rehydrate_with_suggestion answer suggestions question
      | RecordStatus.submitted | RecordStatus.discarded =>
          Question.forceComplete (answer_value answer question) question
      end
  | null | undefined => rehydrate_with_suggestion answer suggestions question
  end.

End WithCollaborators.
End RecordClaims.

(** ** Further sample inputs *)

Module Samples.

(** An integer metadata with both bounds given. *)
Definition word_count : Metadata.Metadata Z :=
  {| Metadata.id := "m4"; Metadata.name := "words"; Metadata.title := "Word count";
     Metadata.settings :=
       {| Metadata.type := "integer"; Metadata.values := undefined;
          Metadata.min := val 0%Z; Metadata.max := val 500%Z |} |}.

(** [new Record("r", "d", [q1, q2], [], null, [suggestion_for_q1], 0)] over
    two distinct question objects. *)
Definition two_questions :
    RecordEntity.State Double.question string Double.suggestion string :=
  RecordEntity.new "r" "d" [0; 1] [] null (val [Double.suggestion_for_q1]) 0%Z
    Double.objects.

(** [record.clear(); record.updatedAt = "2024-01-01"]: the public property
    is assigned from outside, the questions are left alone. *)
Definition cleared_then_stamped :
    RecordEntity.State Double.question string Double.suggestion string :=
  {| RecordEntity.heap := RecordEntity.heap (RecordEntity.clear Double.constructed);
     RecordEntity.this :=
       RecordEntity.set_updatedAt (val "2024-01-01")
         (RecordEntity.this (RecordEntity.clear Double.constructed)) |}.

End Samples.

(** ** The build workflow

    The step "Generate Docker tags" of the workflow "Build Argilla Docker
    image": a shell script over three environment variables whose one line
    of output is appended to [$GITHUB_OUTPUT]. *)

Module BuildWorkflow.

(** The registry the script and the deploy workflow both write out. *)
Definition registry : string := "europe-docker.pkg.dev/argilla-ci/".

(** [[[ $GITHUB_REF == refs/tags/* ]]]: the pattern is unquoted, so it is a
    glob; it matches the references that start with [refs/tags/]. *)
Definition is_tag_ref (GITHUB_REF : string) : bool :=
  String.prefix "refs/tags/" GITHUB_REF.

(** [GCP_REGISTRY_TAG="europe-docker.pkg.dev/argilla-ci/$IMAGE_NAME:$DOCKER_IMAGE_TAG"] *)
Definition GCP_REGISTRY_TAG (IMAGE_NAME DOCKER_IMAGE_TAG : string) : string :=
  registry ++ IMAGE_NAME ++ ":" ++ DOCKER_IMAGE_TAG.

(** [DOCKER_HUB_TAGS], after the [if]. *)
Definition DOCKER_HUB_TAGS (IMAGE_NAME DOCKER_IMAGE_TAG GITHUB_REF : string) : string :=
  let DOCKER_HUB_TAGS := IMAGE_NAME ++ ":" ++ DOCKER_IMAGE_TAG in
  if is_tag_ref GITHUB_REF then DOCKER_HUB_TAGS ++ "," ++ IMAGE_NAME ++ ":latest"
  else DOCKER_HUB_TAGS.

(** [echo "tags=$DOCKER_HUB_TAGS,$GCP_REGISTRY_TAG"]: the line written. *)
Definition generate_docker_tags (IMAGE_NAME DOCKER_IMAGE_TAG GITHUB_REF : string) : string :=
  "tags=" ++ DOCKER_HUB_TAGS IMAGE_NAME DOCKER_IMAGE_TAG GITHUB_REF ++ ","
  ++ GCP_REGISTRY_TAG IMAGE_NAME DOCKER_IMAGE_TAG.

End BuildWorkflow.

(** ** The deploy workflow, one run *)

Module DeployRun.

(** The [with:] entries of a step as the action receives them in a run. *)
Definition inputs_received (c : DeployWorkflow.Context) (s : DeployWorkflow.Step) :
    list (string * string) :=
  map (fun kv => (fst kv, DeployWorkflow.expand c (snd kv))) s.(DeployWorkflow.inputs_with).

(** One entry of them ([""] when the step has no such entry). *)
Definition input_received (c : DeployWorkflow.Context) (key : string)
    (s : DeployWorkflow.Step) : string :=
  DeployWorkflow.expand c (DeployWorkflow.input key s.(DeployWorkflow.inputs_with)).

(** Two runs that may differ in their secrets only. *)
Definition same_but_secrets (c c' : DeployWorkflow.Context) : Prop :=
  (forall n, DeployWorkflow.inputs c n = DeployWorkflow.inputs c' n)
  /\ (forall s o, DeployWorkflow.steps_outputs c s o = DeployWorkflow.steps_outputs c' s o).

(** A sample run. *)
Definition sample (secret : string) : DeployWorkflow.Context :=
  {| DeployWorkflow.inputs :=
       fun n => if String.eqb n "image-name" then "argilla/argilla-quickstart"
                else if String.eqb n "image-version" then "pr-4100" else "";
     DeployWorkflow.secrets := fun _ => secret;
     DeployWorkflow.steps_outputs := fun s o => s ++ "-" ++ o |}.

End DeployRun.

(** ** The settings form of the fields

    The two buttons of each form of the [SettingsFields] component.  The
    [Field] entity is not among the sources; the template reads its getters
    [isModified] and [isFieldValid]. *)

Module SettingsFields.

Class FieldInterface (Field : Type) : Type := {
  isModified : Field -> bool;
  isFieldValid : Field -> bool
}.

Section WithField.
Context {Field : Type} `{!FieldInterface Field}.

(** The button "Cancel": [:disabled="!field.isModified"] *)
Definition cancel_disabled (field : Field) : bool := negb (isModified field).

(** The button "Update":
    [:disabled="!field.isModified || !field.isFieldValid"] *)
Definition update_disabled (field : Field) : bool :=
  negb (isModified field) || negb (isFieldValid field).

End WithField.

(** A stand-in field: the two getters, stored. *)
#[global] Instance flags_are_a_field : FieldInterface (bool * bool) :=
  {| isModified := fst; isFieldValid := snd |}.

End SettingsFields.

(** ** References between the steps of a job *)

Module StepReferences.

(** The step ids a template reads outputs of. *)
Definition of_template (t : DeployWorkflow.Template) : list string :=
  flat_map (fun p => match p with
                     | DeployWorkflow.StepOutput step _ => [step]
                     | _ => []
                     end) t.

(** The step ids a step reads outputs of, in any of its blocks. *)
Definition of_step (s : DeployWorkflow.Step) : list string :=
  flat_map (fun kv => of_template (snd kv))
    (s.(DeployWorkflow.inputs_with) ++ s.(DeployWorkflow.env_vars) ++ s.(DeployWorkflow.env)).

(** The ids the steps of a list declare. *)
Definition ids (steps : list DeployWorkflow.Step) : list string :=
  flat_map (fun s => match s.(DeployWorkflow.id) with
                     | Some i => [i]
                     | None => []
                     end) steps.

End StepReferences.

(** ** The suggestion helpers of the spaCy-LLM tutorial

    The two functions the notebook [labelling-spacy-llm.ipynb] defines to
    turn a processed document into suggestions.  They use Python's [max],
    [collections.Counter] and [heapq.nlargest]; these are embedded as the
    language defines them. *)

Module SpacyLlmTutorial.

Inductive Exception : Type :=
| ValueError     (* max() arg is an empty sequence *)
| TypeError.     (* '>' not supported between a number and None *)

Section Textcat.

(** The scores of [doc.cats] are floats; the function only compares them
    with [>], so the embedding is generic in the type and takes [gt]. *)
Context {Score : Type} (gt : Score -> Score -> bool).

(** A [dict] from label to score, in insertion order. *)
Definition Cats : Type := list (string * Score).

(** [d.get(k)]: [None] for a missing key. *)
Fixpoint get (d : Cats) (k : string) : option Score :=
  match d with
  | [] => None
  | (k', v) :: rest => if String.eqb k' k then Some v else get rest k
  end.

(** The loop of [max(iterable, key=key)] once a first item is held: an item
    replaces the held one when its key is [>] the held key. *)
Fixpoint max_loop (key : string -> option Score) (maxitem : string)
    (maxval : option Score) (items : list string) : Exception + string :=
  match items with
  | [] => inr maxitem
  | item :: rest =>
      let v := key item in
      match v, maxval with
      | Some a, Some b =>
          if gt a b then max_loop key item v rest else max_loop key maxitem maxval rest
      | _, _ => inl TypeError
      end
  end.

(** [max(iterable, key=key)] *)
Definition max_by (key : string -> option Score) (items : list string) :
    Exception + string :=
  match items with
  | [] => inl ValueError
  | item :: rest => max_loop key item (key item) rest
  end.

(** [model_prediction = doc.cats;
     return max(model_prediction, key=model_prediction.get)]: iterating a
    dict yields its keys in insertion order. *)
Definition get_textcat_suggestion (cats : Cats) : Exception + string :=
  let model_prediction := cats in
  max_by (get model_prediction) (map fst model_prediction).

End Textcat.

Section Summarization.

(** A sentence is a spaCy [Span]: iterating it yields its tokens, [str] is
    its text, and it is hashable, so it can key a [Counter]. *)
Context {Sentence Word : Type} `{EqDecision Sentence}.
Context (tokens : Sentence -> list Word) (str : Sentence -> string).

(** A [Counter]: its keys, in insertion order, with their counts. *)
Definition Counter : Type := list (Sentence * nat).

(** [c[k] += 1]: a missing key counts as 0 and is appended. *)
Fixpoint increment (c : Counter) (k : Sentence) : Counter :=
  match c with
  | [] => [(k, 1)]
  | (k', n) :: rest =>
      if decide (k' = k) then (k', S n) :: rest else (k', n) :: increment rest k
  end.

(** [c[k]] *)
Fixpoint count (c : Counter) (k : Sentence) : nat :=
  match c with
  | [] => 0
  | (k', n) :: rest => if decide (k' = k) then n else count rest k
  end.

(** [for word in sentence: sentence_scores[sentence] += 1] *)
Definition count_words (c : Counter) (sentence : Sentence) : Counter :=
  foldl (fun c _ => increment c sentence) c (tokens sentence).

(** [for sentence in doc.sents: ...], from an empty [Counter]. *)
Definition sentence_scores (sents : list Sentence) : Counter :=
  foldl count_words [] sents.

(** [sorted(c, key=c.get, reverse=True)], the keys decorated with their
    counts ([c.get] of a key of [c] is its count): descending, and stable,
    so that of two keys with the same count the one inserted first comes
    first. *)
Fixpoint insert_descending (x : Sentence * nat) (sorted : list (Sentence * nat)) :
    list (Sentence * nat) :=
  match sorted with
  | [] => [x]
  | y :: rest =>
      if Nat.ltb (snd x) (snd y) then y :: insert_descending x rest else x :: y :: rest
  end.

Definition sorted_descending (c : Counter) : list (Sentence * nat) :=
  fold_right insert_descending [] c.

(** [nlargest(n, c, key=c.get)], which the library documents as
    [sorted(c, key=c.get, reverse=True)[:n]]. *)
Definition nlargest (n : nat) (c : Counter) : list Sentence :=
  map fst (firstn n (sorted_descending c)).

(** [' '.join(strings)] *)
Fixpoint join_with_space (strings : list string) : string :=
  match strings with
  | [] => ""
  | [s] => s
  | s :: rest => s ++ " " ++ join_with_space rest
  end.

Definition summary_sentences (sents : list Sentence) : list Sentence :=
  nlargest 2 (sentence_scores sents).

(** [get_summarization_suggestion(doc)], on [doc.sents]. *)
Definition get_summarization_suggestion (sents : list Sentence) : string :=
  join_with_space (map str (summary_sentences sents)).

(** What the loops compute for a sentence, in words: one per token, for
    each time [doc.sents] yields the sentence. *)
Definition score (sents : list Sentence) (s : Sentence) : nat :=
  count_occ (fun x y => decide (x = y)) sents s * length (tokens s).

(** A counter as a [dict] keeps it: no key twice, no count of zero. *)
Definition well_formed (c : Counter) : Prop :=
  List.NoDup (map fst c) /\ forall k n, In (k, n) c -> 0 < n.

(** A list of decorated keys in descending order of count. *)
Definition descending (l : list (Sentence * nat)) : Prop :=
  StronglySorted (fun x y => snd y <= snd x) l.

End Summarization.

(** A sample document: three sentences, as lists of tokens. *)
Definition sample_sents : list (list string) :=
  [["Barcelona"; "lost"; "."];
   ["They"; "tried"; "very"; "hard"; "."];
   ["Fans"; "left"; "early"; "."]].

Definition sample_str (sentence : list string) : string :=
  join_with_space sentence.

Definition sample_cats : Cats (Score := Z) :=
  [("HISTORY", 5%Z); ("SPORTS", 90%Z); ("MUSIC", 90%Z); ("POLITICS", 1%Z)].

End SpacyLlmTutorial.

(** * Properties *)

(** ** Metadata.hasValues *)

Section MetadataFacts.

Context {number : Type}.
Implicit Types m : Metadata.Metadata number.

Lemma strict_eq_true (a b : string) : Js.strict_eq a b = true <-> a = b.
Proof. unfold Js.strict_eq. apply String.eqb_eq. Qed.

Lemma strict_eq_false (a b : string) : Js.strict_eq a b = false <-> a <> b.
Proof. unfold Js.strict_eq. apply String.eqb_neq. Qed.

Lemma strict_ne_null_true {A} (x : Nullable A) : Js.strict_ne_null x = true <-> x <> null.
Proof. destruct x; simpl; split; intros; congruence. Qed.

Lemma values_length_gt_zero (vs : Nullable (list string)) :
  Js.gt_zero (Js.opt_chain vs (fun l => val (length l))) = true
  <-> exists l, vs = val l /\ l <> [].
Proof.
  destruct vs as [| |l]; simpl.
  - split; [discriminate | intros (l & Hl & _); discriminate].
  - split; [discriminate | intros (l & Hl & _); discriminate].
  - destruct l as [|x l]; simpl.
    + split; [discriminate | intros (l & Hl & Hne); inversion Hl; subst; contradiction].
    + split; [intros _; exists (x :: l); split; [reflexivity | discriminate] | reflexivity].
Qed.

(** C1, as amended: [hasValues] is true iff (the type is "terms" and the
    values list is present and non-empty) or (the type is anything other than
    "terms" and neither bound is [null]).  The second branch is taken for
    every non-terms type, numeric or not, and a bound that is [undefined]
    counts as not [null]. *)
Theorem hasValues_iff m :
  Metadata.hasValues m = true
  <-> (m.(Metadata.settings).(Metadata.type) = "terms"
       /\ exists l, m.(Metadata.settings).(Metadata.values) = val l /\ l <> [])
      \/ (m.(Metadata.settings).(Metadata.type) <> "terms"
          /\ m.(Metadata.settings).(Metadata.min) <> null
          /\ m.(Metadata.settings).(Metadata.max) <> null).
Proof.
  unfold Metadata.hasValues, Metadata.isTerms.
  destruct (Js.strict_eq _ "terms") eqn:Hterms.
  - apply strict_eq_true in Hterms.
    rewrite values_length_gt_zero. split.
    + intros H. left. split; assumption.
    + intros [[_ H] | [Hne _]]; [assumption | contradiction].
  - apply strict_eq_false in Hterms.
    rewrite andb_true_iff, !strict_ne_null_true. split.
    + intros [Hmax Hmin]. right. repeat split; assumption.
    + intros [[Heq _] | (_ & Hmin & Hmax)]; [contradiction | split; assumption].
Qed.

End MetadataFacts.

(** C1, counterexample: a metadata whose type is neither "terms" nor numeric
    and whose bounds are both present has [hasValues] true, although neither
    alternative of the claim holds of it. *)
Lemma hasValues_non_numeric_type :
  Metadata.hasValues Metadata.created_at = true
  /\ ~ ((Metadata.type (Metadata.settings Metadata.created_at) = "terms"
         /\ exists l, Metadata.values (Metadata.settings Metadata.created_at) = val l
                      /\ l <> [])
        \/ ((Metadata.type (Metadata.settings Metadata.created_at) = "integer"
             \/ Metadata.type (Metadata.settings Metadata.created_at) = "float")
            /\ Metadata.min (Metadata.settings Metadata.created_at) <> null
            /\ Metadata.max (Metadata.settings Metadata.created_at) <> null)).
Proof.
  split; [reflexivity |].
  simpl. intros [[H _] | [[H | H] _]]; discriminate H.
Qed.

(** ** Record *)

Section RecordFacts.

Context {Question QuestionAnswer Answer Suggestion Field : Type}.
Context `{!Question.Interface Question QuestionAnswer Answer Suggestion}.
Context `{!Suggestion.Interface Suggestion}.
Context `{EqDecision Question, EqDecision Answer, EqDecision Suggestion,
          EqDecision Field}.

Abbreviation State := (RecordEntity.State Question Answer Suggestion Field).
Abbreviation Instance := (RecordEntity.Instance Question Answer Suggestion Field).

Implicit Types (s : State) (r : Instance) (h : RecordEntity.ref -> Question).
Implicit Types (q : RecordEntity.ref) (a : RecordAnswer.t Answer).
Implicit Types (id datasetId : string) (questions : list RecordEntity.ref).
Implicit Types (fields : list Field) (answer : Nullable (RecordAnswer.t Answer)).
Implicit Types (suggestions : Nullable (list Suggestion)) (page : Z).

(** *** In-place loops over the referenced objects *)

Lemma iter_shift {A} (f : A -> A) (n : nat) (x : A) :
  Nat.iter n f (f x) = f (Nat.iter n f x).
Proof. induction n as [|n IH]; simpl; [reflexivity | now rewrite IH]. Qed.

(** A loop that applies [f] in place to each entry of an array of references
    applies it to an object as many times as the array refers to it. *)
Lemma foldl_alter_lookup (f : Question -> Question) (l : list RecordEntity.ref) h q :
  foldl (fun h x => alter f x h) h l q = Nat.iter (count_occ Nat.eq_dec l q) f (h q).
Proof.
  revert h. induction l as [|x l IH]; intros h; [reflexivity |].
  cbn [foldl count_occ]. rewrite IH.
  destruct (Nat.eq_dec x q) as [->|Hne].
  - rewrite fn_lookup_alter. cbn [Nat.iter]. apply iter_shift.
  - now rewrite fn_lookup_alter_ne.
Qed.

Lemma completeQuestion_this s :
  RecordEntity.this (RecordEntity.completeQuestion s) = RecordEntity.this s.
Proof. reflexivity. Qed.

Lemma completeQuestion_lookup s q :
  RecordEntity.heap (RecordEntity.completeQuestion s) q
  = Nat.iter (RecordEntity.occurrences q s)
      (RecordEntity.completeOne (RecordEntity.this s)) (RecordEntity.heap s q).
Proof. apply foldl_alter_lookup. Qed.

(** *** Snapshots *)

Lemma rest_of_set_original h r (o : Nullable (RecordEntity.Rest Question Answer Suggestion Field)) :
  RecordEntity.rest_of
    {| RecordEntity.heap := h; RecordEntity.this := RecordEntity.set_original o r |}
  = RecordEntity.rest_of {| RecordEntity.heap := h; RecordEntity.this := r |}.
Proof. reflexivity. Qed.

Lemma isEqual_true {A} `{EqDecision A} (x y : A) : Js.isEqual x y = true <-> x = y.
Proof. unfold Js.isEqual. rewrite bool_decide_eq_true. reflexivity. Qed.

Lemma isEqual_false {A} `{EqDecision A} (x y : A) : Js.isEqual x y = false <-> x <> y.
Proof. unfold Js.isEqual. rewrite bool_decide_eq_false. reflexivity. Qed.

(** [initialize] leaves [original] equal to the state it returns in. *)
Lemma initialize_original s :
  RecordEntity.original (RecordEntity.this (RecordEntity.initialize s))
  = val (Js.cloneDeep (RecordEntity.rest_of (RecordEntity.initialize s))).
Proof. reflexivity. Qed.

Lemma call_original (c : RecordEntity.Call Answer) s :
  RecordEntity.original (RecordEntity.this (RecordEntity.call c s))
  = val (Js.cloneDeep (RecordEntity.rest_of (RecordEntity.call c s))).
Proof. destruct c; apply initialize_original. Qed.

Lemma isModified_snapshot_current s :
  RecordEntity.original (RecordEntity.this s) = val (RecordEntity.rest_of s) ->
  RecordEntity.isModified s = false.
Proof.
  intros Ho. unfold RecordEntity.isModified. rewrite Ho. cbn [Js.truthy_object andb].
  apply negb_false_iff, isEqual_true. reflexivity.
Qed.

Lemma isModified_call (c : RecordEntity.Call Answer) s :
  RecordEntity.isModified (RecordEntity.call c s) = false.
Proof. apply isModified_snapshot_current, call_original. Qed.

(** A record on which only the constructor has run has no snapshot, whatever
    happens to its questions afterwards. *)
Lemma isModified_without_snapshot s :
  RecordEntity.original (RecordEntity.this s) = undefined ->
  RecordEntity.isModified s = false.
Proof. intros Ho. unfold RecordEntity.isModified. now rewrite Ho. Qed.

Lemma new_original id datasetId questions fields answer suggestions page h :
  RecordEntity.original
    (RecordEntity.this
       (RecordEntity.new id datasetId questions fields answer suggestions page h))
  = undefined.
Proof. reflexivity. Qed.

(** C2: [isModified] is false right after construction and right after
    [submit(answer)], [discard(answer)] and [clear()] return. *)
Theorem isModified_false_after_construction_submit_discard_clear :
  forall id datasetId questions fields answer suggestions page h s a,
    RecordEntity.isModified
      (RecordEntity.new id datasetId questions fields answer suggestions page h) = false
    /\ RecordEntity.isModified (RecordEntity.submit a s) = false
    /\ RecordEntity.isModified (RecordEntity.discard a s) = false
    /\ RecordEntity.isModified (RecordEntity.clear s) = false.
Proof.
  intros. split; [apply isModified_without_snapshot, new_original |].
  split; [apply (isModified_call (RecordEntity.Submit a)) |].
  split; [apply (isModified_call (RecordEntity.Discard a)) |].
  apply (isModified_call RecordEntity.Clear).
Qed.

(** C3, as amended: once a snapshot exists, that is after [initialize],
    [discard], [submit] or [clear] has returned, a change of the answer of any
    question of the record, with no further such call, makes [isModified]
    true. *)
Theorem isModified_true_after_answer_change (c : RecordEntity.Call Answer) s h q :
  In q (RecordEntity.questions (RecordEntity.this (RecordEntity.call c s))) ->
  Question.answer (h q)
    <> Question.answer (RecordEntity.heap (RecordEntity.call c s) q) ->
  RecordEntity.isModified (RecordEntity.edited h (RecordEntity.call c s)) = true.
Proof.
  intros Hin Hchanged.
  unfold RecordEntity.isModified, RecordEntity.edited. cbn [RecordEntity.this].
  rewrite call_original. cbn [Js.truthy_object andb].
  apply negb_true_iff, isEqual_false.
  intros Heq. apply (f_equal (Js.coalesce (A := _))) in Heq.
  apply (f_equal (fun f => RecordEntity.rest_questions (f (RecordEntity.rest_of s)))) in Heq.
  cbn [Js.coalesce Js.cloneDeep RecordEntity.rest_of RecordEntity.rest_questions
       RecordEntity.heap RecordEntity.this] in Heq.
  apply Hchanged. f_equal. symmetry.
  exact (proj1 map_ext_in_iff Heq q Hin).
Qed.

(** *** Status *)

(** C4: with no answer set ([null] or [undefined]) the status is "pending"
    and [isPending] is true. *)
Theorem status_pending_without_answer r :
  RecordEntity.answer r = null \/ RecordEntity.answer r = undefined ->
  RecordEntity.status r = "pending" /\ RecordEntity.isPending r = true.
Proof.
  intros Hanswer. unfold RecordEntity.isPending, RecordEntity.status.
  destruct Hanswer as [-> | ->]; split; reflexivity.
Qed.

(** C5: the status is the answer's status when an answer is present and
    "pending" otherwise; it is one of the four status strings, and exactly
    one of [isPending], [isSubmitted], [isDiscarded], [isDraft] is true. *)
Theorem status_exactly_one r :
  RecordEntity.status r
  = match RecordEntity.answer r with
    | val a => RecordStatus.text a.(RecordAnswer.status)
    | null | undefined => "pending"
    end
  /\ In (RecordEntity.status r) ["pending"; "submitted"; "discarded"; "draft"]
  /\ length (List.filter (fun b : bool => b)
               [RecordEntity.isPending r; RecordEntity.isSubmitted r;
                RecordEntity.isDiscarded r; RecordEntity.isDraft r]) = 1.
Proof.
  unfold RecordEntity.isPending, RecordEntity.isSubmitted, RecordEntity.isDiscarded,
    RecordEntity.isDraft, RecordEntity.status.
  destruct (RecordEntity.answer r) as [| |a]; cbn [Js.opt_chain Js.coalesce].
  - split; [reflexivity | split; [left; reflexivity | reflexivity]].
  - split; [reflexivity | split; [left; reflexivity | reflexivity]].
  - split; [reflexivity |].
    destruct (RecordAnswer.status a); cbn [RecordStatus.text]; split;
      solve [ reflexivity | cbn [In]; tauto ].
Qed.

(** *** submit and discard *)

(** C6: [submit(a)] and [discard(a)] each set [answer] to [a] and
    [updatedAt] to [a.updatedAt], leave in [original] a deep clone of the
    state they return in (it holds [a], [a.updatedAt], the states of the
    listed questions at the return and the record's other properties), and
    leave [id], [datasetId], [fields] and [page] as they were. *)
Theorem submit_discard_set_answer_and_resnapshot s a :
  RecordClaims.answers_and_resnapshots a s (RecordEntity.submit a s)
  /\ RecordClaims.answers_and_resnapshots a s (RecordEntity.discard a s).
Proof.
  split; unfold RecordClaims.answers_and_resnapshots;
    repeat (split; [reflexivity |]); reflexivity.
Qed.

(** *** completeQuestion *)

Lemma iter_ext {A} (f g : A -> A) (n : nat) (x : A) :
  (forall y, f y = g y) -> Nat.iter n f x = Nat.iter n g x.
Proof. intros Hfg. induction n as [|n IH]; simpl; [reflexivity | now rewrite IH, Hfg]. Qed.

(** The callback of [completeQuestion] takes its first branch exactly when
    the record is pending or a draft. *)
Lemma completeOne_rehydrate r (question : Question) :
  RecordEntity.completeOne r question
  = RecordClaims.rehydrate (RecordEntity.answer r) (RecordEntity.suggestions r) question.
Proof.
  unfold RecordEntity.completeOne, RecordEntity.isPending, RecordEntity.isDraft,
    RecordEntity.status, RecordClaims.rehydrate, RecordClaims.rehydrate_with_suggestion,
    RecordClaims.answer_value, RecordClaims.suggestion_of.
  destruct (RecordEntity.answer r) as [| |a]; cbn [Js.opt_chain Js.coalesce].
  - cbn. destruct (RecordEntity.suggestions r); reflexivity.
  - cbn. destruct (RecordEntity.suggestions r); reflexivity.
  - destruct (RecordAnswer.status a); cbn;
      try reflexivity; destruct (RecordEntity.suggestions r); reflexivity.
Qed.

(** C7, as amended: on every construction and on every [initialize()] call,
    [completeQuestion] visits the questions list in order and rehydrates the
    visited question with its answer value (looked up by question name) and,
    while the record is pending or a draft, with its suggestion (looked up by
    question id); once the record is submitted or discarded it force-completes
    the question with the answer value and hands it no suggestion.  A question
    object is visited once for each time the list refers to it. *)
Theorem completeQuestion_rehydrates_by_status
    id datasetId questions fields answer suggestions page h s q :
  RecordEntity.heap
    (RecordEntity.new id datasetId questions fields answer suggestions page h) q
  = Nat.iter (count_occ Nat.eq_dec questions q)
      (RecordClaims.rehydrate answer suggestions) (h q)
  /\ RecordEntity.heap (RecordEntity.initialize s) q
     = Nat.iter (RecordEntity.occurrences q s)
         (RecordClaims.rehydrate (RecordEntity.answer (RecordEntity.this s))
            (RecordEntity.suggestions (RecordEntity.this s)))
         (RecordEntity.heap s q).
Proof.
  split.
  - unfold RecordEntity.new. cbn [RecordEntity.heap].
    rewrite completeQuestion_lookup. unfold RecordEntity.occurrences.
    cbn [RecordEntity.this RecordEntity.questions RecordEntity.heap].
    apply iter_ext. intros question. apply completeOne_rehydrate.
  - unfold RecordEntity.initialize. cbn [RecordEntity.heap].
    rewrite completeQuestion_lookup.
    apply iter_ext. intros question. apply completeOne_rehydrate.
Qed.

(** When the list refers to each question object once, which is how the
    user interface builds it, every listed question is rehydrated exactly
    once and no other object is touched. *)
Lemma visited_once (l : list RecordEntity.ref) q :
  List.NoDup l -> In q l -> count_occ Nat.eq_dec l q = 1.
Proof. intros Hnodup. revert q. apply NoDup_count_occ'. exact Hnodup. Qed.

Lemma not_visited (l : list RecordEntity.ref) q :
  ~ In q l -> count_occ Nat.eq_dec l q = 0.
Proof. apply count_occ_not_In. Qed.

Corollary initialize_rehydrates_listed s q :
  List.NoDup (RecordEntity.questions (RecordEntity.this s)) ->
  In q (RecordEntity.questions (RecordEntity.this s)) ->
  RecordEntity.heap (RecordEntity.initialize s) q
  = RecordClaims.rehydrate (RecordEntity.answer (RecordEntity.this s))
      (RecordEntity.suggestions (RecordEntity.this s)) (RecordEntity.heap s q).
Proof.
  intros Hnodup Hin. unfold RecordEntity.initialize. cbn [RecordEntity.heap].
  rewrite completeQuestion_lookup. unfold RecordEntity.occurrences.
  rewrite (visited_once _ _ Hnodup Hin). apply completeOne_rehydrate.
Qed.

Corollary initialize_leaves_unlisted s q :
  ~ In q (RecordEntity.questions (RecordEntity.this s)) ->
  RecordEntity.heap (RecordEntity.initialize s) q = RecordEntity.heap s q.
Proof.
  intros Hnotin. unfold RecordEntity.initialize. cbn [RecordEntity.heap].
  rewrite completeQuestion_lookup. unfold RecordEntity.occurrences.
  now rewrite (not_visited _ _ Hnotin).
Qed.

(** *** clear *)

(** C9: after [clear()] returns, [clearAnswer] has been called on every
    question of the list (once per reference, before the questions are
    rehydrated as those of a pending record), the record's answer is [null],
    the status is "pending" and [isPending] is true. *)
Theorem clear_clears_every_question_and_answer s q :
  RecordEntity.heap (RecordEntity.clear s) q
  = Nat.iter (RecordEntity.occurrences q s)
      (fun question =>
         let completed := Question.complete undefined question in
         Question.suggests
           (RecordClaims.suggestion_of (RecordEntity.suggestions (RecordEntity.this s))
              completed)
           completed)
      (Nat.iter (RecordEntity.occurrences q s) Question.clearAnswer (RecordEntity.heap s q))
  /\ RecordEntity.answer (RecordEntity.this (RecordEntity.clear s)) = null
  /\ RecordEntity.status (RecordEntity.this (RecordEntity.clear s)) = "pending"
  /\ RecordEntity.isPending (RecordEntity.this (RecordEntity.clear s)) = true.
Proof.
  split; [| repeat split].
  unfold RecordEntity.clear, RecordEntity.initialize. cbn [RecordEntity.heap].
  rewrite completeQuestion_lookup. unfold RecordEntity.occurrences.
  cbn [RecordEntity.this RecordEntity.heap RecordEntity.set_answer RecordEntity.questions].
  rewrite foldl_alter_lookup.
  apply iter_ext. intros question. rewrite completeOne_rehydrate. reflexivity.
Qed.

(** With each question object listed once: cleared, then rehydrated as the
    question of a pending record. *)
Corollary clear_listed s q :
  List.NoDup (RecordEntity.questions (RecordEntity.this s)) ->
  In q (RecordEntity.questions (RecordEntity.this s)) ->
  RecordEntity.heap (RecordEntity.clear s) q
  = RecordClaims.rehydrate_with_suggestion null
      (RecordEntity.suggestions (RecordEntity.this s))
      (Question.clearAnswer (RecordEntity.heap s q)).
Proof.
  intros Hnodup Hin. unfold RecordEntity.clear, RecordEntity.initialize.
  cbn [RecordEntity.heap]. rewrite completeQuestion_lookup. unfold RecordEntity.occurrences.
  cbn [RecordEntity.this RecordEntity.heap RecordEntity.set_answer RecordEntity.questions].
  rewrite foldl_alter_lookup, (visited_once _ _ Hnodup Hin).
  apply (completeOne_rehydrate (RecordEntity.set_answer null (RecordEntity.this s))).
Qed.

(** *** questionAreCompletedCorrectly *)

Lemma every_filter_true {A} (keep p : A -> bool) (l : list A) :
  Js.every p (List.filter keep l) = true
  <-> forall x, In x l -> keep x = true -> p x = true.
Proof.
  unfold Js.every. rewrite forallb_forall. split.
  - intros Hall x Hin Hkeep. apply Hall, filter_In. split; assumption.
  - intros Hall x Hin. apply filter_In in Hin as [Hin Hkeep]. now apply Hall.
Qed.

(** C10: [questionAreCompletedCorrectly()] is true iff every required
    question is answered and every question that is not required has valid
    values; in particular it is true of a record with no questions. *)
Theorem questionAreCompletedCorrectly_iff s :
  (RecordEntity.questionAreCompletedCorrectly s = true
   <-> (forall q, In q (RecordEntity.questions (RecordEntity.this s)) ->
          Question.isRequired (RecordEntity.heap s q) = true ->
          Question.isAnswered (RecordEntity.heap s q) = true)
       /\ (forall q, In q (RecordEntity.questions (RecordEntity.this s)) ->
             Question.isRequired (RecordEntity.heap s q) = false ->
             Question.hasValidValues (RecordEntity.heap s q) = true))
  /\ (RecordEntity.questions (RecordEntity.this s) = [] ->
      RecordEntity.questionAreCompletedCorrectly s = true).
Proof.
  unfold RecordEntity.questionAreCompletedCorrectly. split.
  - rewrite andb_true_iff, !every_filter_true. split.
    + intros [Hreq Hopt]. split.
      * intros q Hin Hr. apply Hreq; [now apply in_map | assumption].
      * intros q Hin Hr. apply Hopt; [now apply in_map | now rewrite Hr].
    + intros [Hreq Hopt]. split.
      * intros x Hin Hr. apply in_map_iff in Hin as (q & <- & Hin). now apply Hreq.
      * intros x Hin Hr. apply in_map_iff in Hin as (q & <- & Hin).
        apply Hopt; [assumption | now apply negb_true_iff].
  - intros ->. reflexivity.
Qed.

End RecordFacts.

(** ** Metadata, on concrete inputs *)

(** A numeric metadata whose bounds were left out ([undefined], not [null])
    has [hasValues] true: the test is [!== null]. *)
Example hasValues_absent_bounds :
  Metadata.hasValues
    {| Metadata.id := "m2"; Metadata.name := "length"; Metadata.title := "Length";
       Metadata.settings :=
         {| Metadata.type := "integer"; Metadata.values := undefined;
            Metadata.min := @undefined Z; Metadata.max := undefined |} |} = true.
Proof. reflexivity. Qed.

(** A terms metadata with an empty or absent values list has none. *)
Example hasValues_terms_without_values :
  Metadata.hasValues
    {| Metadata.id := "m3"; Metadata.name := "topic"; Metadata.title := "Topic";
       Metadata.settings :=
         {| Metadata.type := "terms"; Metadata.values := val [];
            Metadata.min := val 1%Z; Metadata.max := val 2%Z |} |} = false
  /\ Metadata.hasValues
       {| Metadata.id := "m3"; Metadata.name := "topic"; Metadata.title := "Topic";
          Metadata.settings :=
            {| Metadata.type := "terms"; Metadata.values := undefined;
               Metadata.min := val 1%Z; Metadata.max := val 2%Z |} |} = false.
Proof. split; reflexivity. Qed.

(** ** Record, on concrete inputs *)

(** C3, counterexample: on a record on which only the constructor has run,
    the answer of a question changes and [isModified] is still false. *)
Lemma isModified_false_after_answer_change_on_constructed :
  In 0 (RecordEntity.questions (RecordEntity.this Double.constructed))
  /\ Question.answer (RecordEntity.heap (Double.typed Double.constructed) 0)
     <> Question.answer (RecordEntity.heap Double.constructed 0)
  /\ RecordEntity.this (Double.typed Double.constructed)
     = RecordEntity.this Double.constructed
  /\ RecordEntity.isModified (Double.typed Double.constructed) = false.
Proof.
  split; [left; reflexivity |].
  split; [discriminate |].
  split; reflexivity.
Qed.

(** C3, witness: the same edit after [clear()] is seen. *)
Lemma isModified_true_after_answer_change_witness :
  In 0 (RecordEntity.questions
          (RecordEntity.this (RecordEntity.call RecordEntity.Clear Double.constructed)))
  /\ Question.answer
       (RecordEntity.heap (Double.typed (RecordEntity.clear Double.constructed)) 0)
     <> Question.answer (RecordEntity.heap (RecordEntity.clear Double.constructed) 0)
  /\ RecordEntity.isModified (Double.typed (RecordEntity.clear Double.constructed)) = true.
Proof.
  split; [left; reflexivity |].
  split; [discriminate |].
  apply (isModified_true_after_answer_change RecordEntity.Clear Double.constructed
           (alter (Double.edit (val "maybe")) 0
              (RecordEntity.heap (RecordEntity.clear Double.constructed))) 0).
  - left; reflexivity.
  - discriminate.
Defined.

(** C4, witness. *)
Lemma status_pending_without_answer_witness :
  (RecordEntity.answer (RecordEntity.this Double.constructed) = null
   \/ RecordEntity.answer (RecordEntity.this Double.constructed) = undefined)
  /\ RecordEntity.status (RecordEntity.this Double.constructed) = "pending"
  /\ RecordEntity.isPending (RecordEntity.this Double.constructed) = true.
Proof.
  split; [left; reflexivity |].
  apply status_pending_without_answer. left; reflexivity.
Defined.

(** C7, counterexample: a submitted record is constructed with a suggestion
    for its question; the question is force-completed with its answer value
    and is never handed the suggestion. *)
Lemma completeQuestion_submitted_gets_no_suggestion :
  RecordClaims.suggestion_of (val [Double.suggestion_for_q1]) (Double.objects 0)
  = val Double.suggestion_for_q1
  /\ Double.calls (RecordEntity.heap Double.constructed_submitted 0)
     = [Double.ForceComplete (val "no")]
  /\ RecordEntity.heap Double.constructed_submitted 0
     <> RecordClaims.rehydrate_with_suggestion
          (val (Double.answered RecordStatus.submitted))
          (val [Double.suggestion_for_q1]) (Double.objects 0).
Proof.
  split; [reflexivity |].
  split; [reflexivity |].
  discriminate.
Qed.

(** C9, on the double: the calls the question has received when [clear()]
    returns. *)
Example clear_calls :
  Double.calls (RecordEntity.heap (RecordEntity.clear Double.constructed) 0)
  = [Double.Complete undefined; Double.Suggests (val Double.suggestion_for_q1);
     Double.ClearAnswer;
     Double.Complete undefined; Double.Suggests (val Double.suggestion_for_q1)].
Proof. reflexivity. Qed.

(** C10, witness: a record with no questions. *)
Lemma questionAreCompletedCorrectly_witness :
  RecordEntity.questions (RecordEntity.this Double.without_questions) = []
  /\ RecordEntity.questionAreCompletedCorrectly Double.without_questions = true.
Proof.
  split; [reflexivity |].
  apply (proj2 (questionAreCompletedCorrectly_iff Double.without_questions)).
  reflexivity.
Defined.

(** ** The deploy workflow *)

Lemma append_empty_r (s : string) : (s ++ "")%string = s.
Proof.
  induction s as [|ch rest IH]; [reflexivity |].
  change (String ch (rest ++ "")%string = String ch rest). now rewrite IH.
Qed.

(** C8: in every run the step "Deploy in Cloud Run" is unconditional, passes
    the flags --min-instances=1 --max-instances=1 --port=6900 --cpu=2000m
    --memory=2048Mi, and sets the owner, admin and annotator credentials
    generated by the step [credentials] as both the PASSWORD and the API_KEY
    variable of the deployed service. *)
Theorem deploy_flags_and_credentials (c : DeployWorkflow.Context) :
  let environment := DeployWorkflow.environment c DeployWorkflow.deploy_in_cloud_run in
  let generated := DeployWorkflow.steps_outputs c "credentials" in
  DeployWorkflow.step_named "Deploy in Cloud Run" DeployWorkflow.deploy
  = Some DeployWorkflow.deploy_in_cloud_run
  /\ DeployWorkflow.condition DeployWorkflow.deploy_in_cloud_run = None
  /\ In DeployWorkflow.generate_credentials
        (DeployWorkflow.steps_before "Deploy in Cloud Run" DeployWorkflow.deploy)
  /\ DeployWorkflow.id DeployWorkflow.generate_credentials = Some "credentials"
  /\ incl ["--min-instances=1"; "--max-instances=1"; "--port=6900"; "--cpu=2000m";
           "--memory=2048Mi"]
          (DeployWorkflow.flags_passed c DeployWorkflow.deploy_in_cloud_run)
  /\ DeployWorkflow.env_lookup "OWNER_PASSWORD" environment = Some (generated "owner")
  /\ DeployWorkflow.env_lookup "OWNER_API_KEY" environment = Some (generated "owner")
  /\ DeployWorkflow.env_lookup "ADMIN_PASSWORD" environment = Some (generated "admin")
  /\ DeployWorkflow.env_lookup "ADMIN_API_KEY" environment = Some (generated "admin")
  /\ DeployWorkflow.env_lookup "ANNOTATOR_PASSWORD" environment
     = Some (generated "annotator")
  /\ DeployWorkflow.env_lookup "ANNOTATOR_API_KEY" environment
     = Some (generated "annotator").
Proof.
  intros environment generated. subst environment generated.
  split; [reflexivity |]. split; [reflexivity |].
  split; [cbn; tauto |]. split; [reflexivity |]. split.
  - assert (Hflags : DeployWorkflow.flags_passed c DeployWorkflow.deploy_in_cloud_run
                     = ["--min-instances=1"; "--max-instances=1"; "--port=6900";
                        "--cpu=2000m"; "--memory=2048Mi"; "--no-cpu-throttling";
                        "--allow-unauthenticated"]) by reflexivity.
    rewrite Hflags. intros flag Hflag. cbn [In] in Hflag |- *. tauto.
  - assert (Hexpand : forall step output,
               DeployWorkflow.expand c [DeployWorkflow.StepOutput step output]
               = DeployWorkflow.steps_outputs c step output).
    { intros step output. cbn [DeployWorkflow.expand fold_right DeployWorkflow.eval].
      apply append_empty_r. }
    cbn -[DeployWorkflow.expand]. rewrite !Hexpand. repeat split; reflexivity.
Qed.

(** * Further properties of the entities *)

Section RecordMoreFacts.

Context {Question QuestionAnswer Answer Suggestion Field : Type}.
Context `{!Question.Interface Question QuestionAnswer Answer Suggestion}.
Context `{!Suggestion.Interface Suggestion}.
Context `{EqDecision Question, EqDecision Answer, EqDecision Suggestion,
          EqDecision Field}.

Implicit Types (s : RecordEntity.State Question Answer Suggestion Field).
Implicit Types (r : RecordEntity.Instance Question Answer Suggestion Field).
Implicit Types (h : RecordEntity.ref -> Question) (q : RecordEntity.ref).
Implicit Types (a : RecordAnswer.t Answer) (c : RecordEntity.Call Answer).

(** Two readings of the same array of references differ exactly when some
    referenced object differs. *)
Lemma map_differs (f g : RecordEntity.ref -> Question) (l : list RecordEntity.ref) :
  map f l <> map g l <-> exists q, In q l /\ f q <> g q.
Proof.
  induction l as [|x l IH]; cbn [map].
  - split; [intros Hne; now contradiction Hne | intros (q & [] & _)].
  - split.
    + intros Hne. destruct (decide (f x = g x)) as [Heq | Hhead].
      * assert (Htail : map f l <> map g l) by (intros Hmap; apply Hne; now rewrite Heq, Hmap).
        apply IH in Htail as (q & Hin & Hq). exists q. split; [now right | assumption].
      * exists x. split; [now left | assumption].
    + intros (q & [-> | Hin] & Hq) Heq; injection Heq as Hhead Htail.
      * contradiction.
      * apply (proj2 IH); [exists q; split; assumption | assumption].
Qed.

(** When only the question objects were edited since the snapshot,
    [isModified] is true exactly when some listed question object is in a
    state other than its state at the snapshot. *)
Lemma isModified_edited_iff c s h :
  RecordEntity.isModified (RecordEntity.edited h (RecordEntity.call c s)) = true
  <-> exists q,
        In q (RecordEntity.questions (RecordEntity.this (RecordEntity.call c s)))
        /\ h q <> RecordEntity.heap (RecordEntity.call c s) q.
Proof.
  unfold RecordEntity.isModified, RecordEntity.edited. cbn [RecordEntity.this].
  rewrite call_original. cbn [Js.truthy_object andb].
  rewrite negb_true_iff, isEqual_false, <- map_differs.
  unfold Js.cloneDeep, RecordEntity.rest_of. cbn [RecordEntity.heap RecordEntity.this].
  split.
  - intros Hne Hmap. apply Hne. now rewrite Hmap.
  - intros Hne Heq. apply Hne. injection Heq as Hmap. now symmetry.
Qed.

(** Two states have the same [rest] exactly when they agree on each of its
    eight properties. *)
Lemma rest_of_eq_iff s s' :
  RecordEntity.rest_of s' = RecordEntity.rest_of s
  <-> RecordEntity.id (RecordEntity.this s') = RecordEntity.id (RecordEntity.this s)
      /\ RecordEntity.datasetId (RecordEntity.this s')
         = RecordEntity.datasetId (RecordEntity.this s)
      /\ map (RecordEntity.heap s') (RecordEntity.questions (RecordEntity.this s'))
         = map (RecordEntity.heap s) (RecordEntity.questions (RecordEntity.this s))
      /\ RecordEntity.fields (RecordEntity.this s') = RecordEntity.fields (RecordEntity.this s)
      /\ RecordEntity.answer (RecordEntity.this s') = RecordEntity.answer (RecordEntity.this s)
      /\ RecordEntity.suggestions (RecordEntity.this s')
         = RecordEntity.suggestions (RecordEntity.this s)
      /\ RecordEntity.page (RecordEntity.this s') = RecordEntity.page (RecordEntity.this s)
      /\ RecordEntity.updatedAt (RecordEntity.this s')
         = RecordEntity.updatedAt (RecordEntity.this s).
Proof.
  split.
  - intros Heq.
    split; [exact (f_equal RecordEntity.rest_id Heq) |].
    split; [exact (f_equal RecordEntity.rest_datasetId Heq) |].
    split; [exact (f_equal RecordEntity.rest_questions Heq) |].
    split; [exact (f_equal RecordEntity.rest_fields Heq) |].
    split; [exact (f_equal RecordEntity.rest_answer Heq) |].
    split; [exact (f_equal RecordEntity.rest_suggestions Heq) |].
    split; [exact (f_equal RecordEntity.rest_page Heq) |].
    exact (f_equal RecordEntity.rest_updatedAt Heq).
  - intros (Hid & Hdataset & Hquestions & Hfields & Hanswer & Hsuggestions & Hpage & Hupdated).
    unfold RecordEntity.rest_of.
    now rewrite Hid, Hdataset, Hquestions, Hfields, Hanswer, Hsuggestions, Hpage, Hupdated.
Qed.

(** X1: once a snapshot exists, and whatever was assigned or edited since
    (the [answer] and [updatedAt] properties are public, the question objects
    are shared), [isModified] is true exactly when the record differs from
    the snapshot in one of its properties other than [original]: [id],
    [datasetId], the states of the listed questions, [fields], [answer],
    [suggestions], [page] or [updatedAt]. *)
Theorem isModified_iff_some_property_differs c s s' :
  RecordEntity.original (RecordEntity.this s')
  = RecordEntity.original (RecordEntity.this (RecordEntity.call c s)) ->
  (RecordEntity.isModified s' = true
   <-> RecordEntity.id (RecordEntity.this s')
       <> RecordEntity.id (RecordEntity.this (RecordEntity.call c s))
       \/ RecordEntity.datasetId (RecordEntity.this s')
          <> RecordEntity.datasetId (RecordEntity.this (RecordEntity.call c s))
       \/ map (RecordEntity.heap s') (RecordEntity.questions (RecordEntity.this s'))
          <> map (RecordEntity.heap (RecordEntity.call c s))
               (RecordEntity.questions (RecordEntity.this (RecordEntity.call c s)))
       \/ RecordEntity.fields (RecordEntity.this s')
          <> RecordEntity.fields (RecordEntity.this (RecordEntity.call c s))
       \/ RecordEntity.answer (RecordEntity.this s')
          <> RecordEntity.answer (RecordEntity.this (RecordEntity.call c s))
       \/ RecordEntity.suggestions (RecordEntity.this s')
          <> RecordEntity.suggestions (RecordEntity.this (RecordEntity.call c s))
       \/ RecordEntity.page (RecordEntity.this s')
          <> RecordEntity.page (RecordEntity.this (RecordEntity.call c s))
       \/ RecordEntity.updatedAt (RecordEntity.this s')
          <> RecordEntity.updatedAt (RecordEntity.this (RecordEntity.call c s))).
Proof.
  intros Horiginal. unfold RecordEntity.isModified. rewrite Horiginal, call_original.
  cbn [Js.truthy_object andb]. rewrite negb_true_iff, isEqual_false.
  unfold Js.cloneDeep.
  assert (Hval : val (RecordEntity.rest_of (RecordEntity.call c s)) <> val (RecordEntity.rest_of s')
                 <-> RecordEntity.rest_of s' <> RecordEntity.rest_of (RecordEntity.call c s)).
  { split; intros Hne Heq; apply Hne; congruence. }
  rewrite Hval, rest_of_eq_iff. split.
  - intros Hne.
    destruct (decide (RecordEntity.id (RecordEntity.this s')
                      = RecordEntity.id (RecordEntity.this (RecordEntity.call c s))));
      [| now left]. right.
    destruct (decide (RecordEntity.datasetId (RecordEntity.this s')
                      = RecordEntity.datasetId (RecordEntity.this (RecordEntity.call c s))));
      [| now left]. right.
    destruct (decide (map (RecordEntity.heap s') (RecordEntity.questions (RecordEntity.this s'))
                      = map (RecordEntity.heap (RecordEntity.call c s))
                          (RecordEntity.questions (RecordEntity.this (RecordEntity.call c s)))));
      [| now left]. right.
    destruct (decide (RecordEntity.fields (RecordEntity.this s')
                      = RecordEntity.fields (RecordEntity.this (RecordEntity.call c s))));
      [| now left]. right.
    destruct (decide (RecordEntity.answer (RecordEntity.this s')
                      = RecordEntity.answer (RecordEntity.this (RecordEntity.call c s))));
      [| now left]. right.
    destruct (decide (RecordEntity.suggestions (RecordEntity.this s')
                      = RecordEntity.suggestions (RecordEntity.this (RecordEntity.call c s))));
      [| now left]. right.
    destruct (decide (RecordEntity.page (RecordEntity.this s')
                      = RecordEntity.page (RecordEntity.this (RecordEntity.call c s))));
      [| now left]. right.
    intros Hupdated. apply Hne. repeat split; assumption.
  - intros Hdiffers (Hid & Hdataset & Hquestions & Hfields & Hanswer & Hsuggestions
                     & Hpage & Hupdated).
    destruct Hdiffers as [H' | [H' | [H' | [H' | [H' | [H' | [H' | H']]]]]]];
      now apply H'.
Qed.

(** X2: none of [initialize], [discard], [submit], [clear] changes [id],
    [datasetId], the [questions] array, [fields], [suggestions] or [page]. *)
Theorem call_frame c s :
  RecordEntity.id (RecordEntity.this (RecordEntity.call c s))
  = RecordEntity.id (RecordEntity.this s)
  /\ RecordEntity.datasetId (RecordEntity.this (RecordEntity.call c s))
     = RecordEntity.datasetId (RecordEntity.this s)
  /\ RecordEntity.questions (RecordEntity.this (RecordEntity.call c s))
     = RecordEntity.questions (RecordEntity.this s)
  /\ RecordEntity.fields (RecordEntity.this (RecordEntity.call c s))
     = RecordEntity.fields (RecordEntity.this s)
  /\ RecordEntity.suggestions (RecordEntity.this (RecordEntity.call c s))
     = RecordEntity.suggestions (RecordEntity.this s)
  /\ RecordEntity.page (RecordEntity.this (RecordEntity.call c s))
     = RecordEntity.page (RecordEntity.this s).
Proof. destruct c; repeat (split; [reflexivity |]); reflexivity. Qed.

(** X3: [clear()] resets the answer and leaves [updatedAt] as it was;
    [initialize()] leaves both as they were. *)
Theorem clear_keeps_updatedAt s :
  RecordEntity.updatedAt (RecordEntity.this (RecordEntity.clear s))
  = RecordEntity.updatedAt (RecordEntity.this s)
  /\ RecordEntity.updatedAt (RecordEntity.this (RecordEntity.initialize s))
     = RecordEntity.updatedAt (RecordEntity.this s)
  /\ RecordEntity.answer (RecordEntity.this (RecordEntity.initialize s))
     = RecordEntity.answer (RecordEntity.this s).
Proof. repeat split. Qed.

Lemma call_lookup_unlisted c s q :
  ~ In q (RecordEntity.questions (RecordEntity.this s)) ->
  RecordEntity.heap (RecordEntity.call c s) q = RecordEntity.heap s q.
Proof.
  intros Hnotin.
  destruct c; cbn [RecordEntity.call];
    unfold RecordEntity.discard, RecordEntity.submit, RecordEntity.clear,
      RecordEntity.initialize;
    cbn [RecordEntity.heap]; rewrite completeQuestion_lookup;
    unfold RecordEntity.occurrences;
    cbn [RecordEntity.this RecordEntity.heap RecordEntity.set_answer
         RecordEntity.set_updatedAt RecordEntity.questions];
    rewrite ?foldl_alter_lookup, (not_visited _ _ Hnotin); reflexivity.
Qed.

(** X4: the constructor and the four calls touch no question object outside
    the record's [questions] array. *)
Theorem unlisted_questions_untouched
    id datasetId questions (fields : list Field) answer suggestions page c s h q :
  ~ In q questions ->
  ~ In q (RecordEntity.questions (RecordEntity.this s)) ->
  RecordEntity.heap
    (RecordEntity.new id datasetId questions fields answer suggestions page h) q = h q
  /\ RecordEntity.heap (RecordEntity.call c s) q = RecordEntity.heap s q.
Proof.
  intros Hnew Hcall. split; [| now apply call_lookup_unlisted].
  unfold RecordEntity.new. cbn [RecordEntity.heap]. rewrite completeQuestion_lookup.
  unfold RecordEntity.occurrences. cbn [RecordEntity.this RecordEntity.questions].
  now rewrite (not_visited _ _ Hnew).
Qed.

(** X5: [submit] and [discard] are the same operation, and neither sets a
    status of its own: afterwards the status is the one the given answer
    carries. *)
Theorem submit_discard_status_from_answer a s :
  RecordEntity.submit a s = RecordEntity.discard a s
  /\ RecordEntity.status (RecordEntity.this (RecordEntity.submit a s))
     = RecordStatus.text a.(RecordAnswer.status)
  /\ (RecordEntity.isSubmitted (RecordEntity.this (RecordEntity.submit a s)) = true
      <-> a.(RecordAnswer.status) = RecordStatus.submitted)
  /\ (RecordEntity.isDiscarded (RecordEntity.this (RecordEntity.discard a s)) = true
      <-> a.(RecordAnswer.status) = RecordStatus.discarded).
Proof.
  split; [reflexivity |]. split; [reflexivity |].
  unfold RecordEntity.isSubmitted, RecordEntity.isDiscarded, RecordEntity.status.
  cbn [RecordEntity.submit RecordEntity.discard RecordEntity.initialize RecordEntity.this
       RecordEntity.completeQuestion RecordEntity.set_original RecordEntity.set_updatedAt
       RecordEntity.set_answer RecordEntity.answer Js.opt_chain Js.coalesce].
  destruct (RecordAnswer.status a); cbn; split; split; congruence.
Qed.

(** X6: submitting (or discarding) with an answer whose status is submitted
    or discarded force-completes every listed question with the value the
    answer holds under the question's name, whatever the suggestions are. *)
Theorem submit_force_completes a s q :
  List.NoDup (RecordEntity.questions (RecordEntity.this s)) ->
  In q (RecordEntity.questions (RecordEntity.this s)) ->
  a.(RecordAnswer.status) = RecordStatus.submitted
  \/ a.(RecordAnswer.status) = RecordStatus.discarded ->
  RecordEntity.heap (RecordEntity.submit a s) q
  = Question.forceComplete
      (RecordAnswer.value_at a (Question.name (RecordEntity.heap s q)))
      (RecordEntity.heap s q).
Proof.
  intros Hnodup Hin Hstatus.
  unfold RecordEntity.submit, RecordEntity.initialize. cbn [RecordEntity.heap].
  rewrite completeQuestion_lookup. unfold RecordEntity.occurrences.
  cbn [RecordEntity.this RecordEntity.heap RecordEntity.set_answer
       RecordEntity.set_updatedAt RecordEntity.questions].
  rewrite (visited_once _ _ Hnodup Hin).
  change (RecordEntity.completeOne
            (RecordEntity.set_updatedAt (RecordAnswer.updatedAt a)
               (RecordEntity.set_answer (val a) (RecordEntity.this s)))
            (RecordEntity.heap s q) = Question.forceComplete
      (RecordAnswer.value_at a (Question.name (RecordEntity.heap s q)))
      (RecordEntity.heap s q)).
  rewrite completeOne_rehydrate. unfold RecordClaims.rehydrate.
  cbn [RecordEntity.answer RecordEntity.set_updatedAt RecordEntity.set_answer].
  destruct Hstatus as [-> | ->]; reflexivity.
Qed.

(** X7: [hasAnyQuestionAnswered] is true exactly when the answer of some
    listed question is valid or partially valid; it is false of a record
    without questions. *)
Theorem hasAnyQuestionAnswered_iff s :
  (RecordEntity.hasAnyQuestionAnswered s = true
   <-> exists q,
         In q (RecordEntity.questions (RecordEntity.this s))
         /\ (Question.isValid (Question.answer (RecordEntity.heap s q)) = true
             \/ Question.isPartiallyValid (Question.answer (RecordEntity.heap s q)) = true))
  /\ (RecordEntity.questions (RecordEntity.this s) = [] ->
      RecordEntity.hasAnyQuestionAnswered s = false).
Proof.
  unfold RecordEntity.hasAnyQuestionAnswered, Js.some. split.
  - rewrite existsb_exists. split.
    + intros (x & Hin & Hx). apply in_map_iff in Hin as (q & <- & Hin).
      exists q. split; [assumption | now apply orb_true_iff].
    + intros (q & Hin & Hq). exists (RecordEntity.heap s q).
      split; [now apply in_map | now apply orb_true_iff].
  - intros ->. reflexivity.
Qed.

(** X8: what each status getter says about the answer. *)
Theorem status_getters_iff r :
  (RecordEntity.isPending r = true
   <-> RecordEntity.answer r = null \/ RecordEntity.answer r = undefined
       \/ exists a, RecordEntity.answer r = val a
                    /\ a.(RecordAnswer.status) = RecordStatus.pending)
  /\ (RecordEntity.isSubmitted r = true
      <-> exists a, RecordEntity.answer r = val a
                    /\ a.(RecordAnswer.status) = RecordStatus.submitted)
  /\ (RecordEntity.isDiscarded r = true
      <-> exists a, RecordEntity.answer r = val a
                    /\ a.(RecordAnswer.status) = RecordStatus.discarded)
  /\ (RecordEntity.isDraft r = true
      <-> exists a, RecordEntity.answer r = val a
                    /\ a.(RecordAnswer.status) = RecordStatus.draft).
Proof.
  unfold RecordEntity.isPending, RecordEntity.isSubmitted, RecordEntity.isDiscarded,
    RecordEntity.isDraft, RecordEntity.status.
  destruct (RecordEntity.answer r) as [| |a]; cbn [Js.opt_chain Js.coalesce].
  all: try destruct (RecordAnswer.status a) eqn:Hstatus.
  all: cbn; repeat split; intros Hx.
  all: solve
    [ discriminate Hx
    | reflexivity
    | left; reflexivity
    | right; left; reflexivity
    | eauto
    | right; right; eauto
    | destruct Hx as (b & Hb & Hs); first [discriminate Hb | injection Hb as <-; congruence]
    | destruct Hx as [Hx | [Hx | (b & Hb & Hs)]];
      [discriminate Hx | discriminate Hx | injection Hb as <-; congruence] ].
Qed.

(** X9: the constructor rehydrates the questions and [initialize] rehydrates
    them again: after [new] followed by [initialize()] every listed question
    has been rehydrated twice (with the same answer and suggestions). *)
Theorem new_then_initialize_rehydrates_twice
    id datasetId questions (fields : list Field) answer suggestions page h q :
  List.NoDup questions ->
  In q questions ->
  RecordEntity.heap
    (RecordEntity.initialize
       (RecordEntity.new id datasetId questions fields answer suggestions page h)) q
  = RecordClaims.rehydrate answer suggestions
      (RecordClaims.rehydrate answer suggestions (h q)).
Proof.
  intros Hnodup Hin.
  unfold RecordEntity.initialize, RecordEntity.new. cbn [RecordEntity.heap].
  rewrite completeQuestion_lookup. unfold RecordEntity.occurrences.
  cbn [RecordEntity.this RecordEntity.heap RecordEntity.set_updatedAt
       RecordEntity.questions RecordEntity.completeQuestion].
  rewrite foldl_alter_lookup, (visited_once _ _ Hnodup Hin).
  repeat match goal with
         | |- context [Nat.iter 1 ?f ?x] => change (Nat.iter 1 f x) with (f x)
         end.
  now rewrite !completeOne_rehydrate.
Qed.

End RecordMoreFacts.

(** ** Record and Metadata, on concrete inputs *)

(** X1, witness: after [clear()], assigning [updatedAt] alone marks the
    record as modified, every listed question being as it was. *)
Lemma isModified_iff_some_property_differs_witness :
  RecordEntity.original (RecordEntity.this Samples.cleared_then_stamped)
  = RecordEntity.original
      (RecordEntity.this (RecordEntity.call RecordEntity.Clear Double.constructed))
  /\ RecordEntity.heap Samples.cleared_then_stamped 0
     = RecordEntity.heap (RecordEntity.clear Double.constructed) 0
  /\ RecordEntity.isModified Samples.cleared_then_stamped = true.
Proof.
  split; [reflexivity |]. split; [reflexivity |].
  apply (proj2 (isModified_iff_some_property_differs RecordEntity.Clear
                  Double.constructed Samples.cleared_then_stamped eq_refl)).
  do 7 right. discriminate.
Defined.

(** X4, witness: the second question object is not in the record's list. *)
Lemma unlisted_questions_untouched_witness :
  ~ In 1 [0]
  /\ RecordEntity.heap Double.constructed 1 = Double.objects 1
  /\ RecordEntity.heap (RecordEntity.clear Double.constructed) 1
     = RecordEntity.heap Double.constructed 1.
Proof.
  assert (Hnotin : ~ In 1 [0]) by (intros [H | []]; discriminate H).
  split; [exact Hnotin |].
  exact (unlisted_questions_untouched "r" "d" [0] [] null
           (val [Double.suggestion_for_q1]) 0%Z RecordEntity.Clear
           Double.constructed Double.objects 1 Hnotin Hnotin).
Defined.

(** X7, witness: a record without questions. *)
Lemma hasAnyQuestionAnswered_witness :
  RecordEntity.questions (RecordEntity.this Double.without_questions) = []
  /\ RecordEntity.hasAnyQuestionAnswered Double.without_questions = false.
Proof.
  split; [reflexivity |].
  apply (proj2 (hasAnyQuestionAnswered_iff Double.without_questions)). reflexivity.
Defined.

(** X6, witness: a submitted answer for the question [q1]. *)
Lemma submit_force_completes_witness :
  List.NoDup (RecordEntity.questions (RecordEntity.this Double.constructed))
  /\ In 0 (RecordEntity.questions (RecordEntity.this Double.constructed))
  /\ RecordEntity.heap
       (RecordEntity.submit (Double.answered RecordStatus.submitted) Double.constructed) 0
     = Question.forceComplete
         (RecordAnswer.value_at (Double.answered RecordStatus.submitted)
            (Question.name (RecordEntity.heap Double.constructed 0)))
         (RecordEntity.heap Double.constructed 0).
Proof.
  assert (Hnodup : List.NoDup [0]) by (constructor; [intros [] | constructor]).
  split; [exact Hnodup |]. split; [left; reflexivity |].
  apply submit_force_completes; [exact Hnodup | left; reflexivity | left; reflexivity].
Defined.

(** X9, witness: two distinct question objects. *)
Lemma new_then_initialize_rehydrates_twice_witness :
  List.NoDup [0; 1] /\ In 1 [0; 1]
  /\ RecordEntity.heap (RecordEntity.initialize Samples.two_questions) 1
     = RecordClaims.rehydrate null (val [Double.suggestion_for_q1])
         (RecordClaims.rehydrate null (val [Double.suggestion_for_q1]) (Double.objects 1)).
Proof.
  assert (Hnodup : List.NoDup [0; 1]).
  { constructor; [intros [H | []]; discriminate H |].
    constructor; [intros [] | constructor]. }
  split; [exact Hnodup |]. split; [right; left; reflexivity |].
  apply (new_then_initialize_rehydrates_twice (Field := string));
    [exact Hnodup | right; left; reflexivity].
Defined.

(** ** Metadata *)

Section MetadataMoreFacts.

Context {number : Type}.
Implicit Types m : Metadata.Metadata number.

(** X10: at most one of [isTerms], [isInteger], [isFloat] is true, and one
    of them is exactly when the type is "terms", "integer" or "float". *)
Theorem type_getters_exclusive m :
  length (List.filter (fun b : bool => b)
            [Metadata.isTerms m; Metadata.isInteger m; Metadata.isFloat m]) <= 1
  /\ (Metadata.isTerms m || Metadata.isInteger m || Metadata.isFloat m = true
      <-> In m.(Metadata.settings).(Metadata.type) ["terms"; "integer"; "float"]).
Proof.
  unfold Metadata.isTerms, Metadata.isInteger, Metadata.isFloat. split.
  - destruct (Js.strict_eq _ "terms") eqn:Hterms;
      destruct (Js.strict_eq _ "integer") eqn:Hinteger;
      destruct (Js.strict_eq _ "float") eqn:Hfloat;
      cbn [List.filter length]; try lia;
      rewrite ?strict_eq_true in *; congruence.
  - rewrite !orb_true_iff, !strict_eq_true. cbn [In]. split.
    + intros [[Heq | Heq] | Heq]; rewrite Heq; tauto.
    + intros [Heq | [Heq | [Heq | []]]]; rewrite <- Heq; tauto.
Qed.

(** X11: for a metadata of one of the three known types, [hasValues] is true
    iff (the type is "terms" and the values list is non-empty) or (the type
    is "integer" or "float" and neither bound is [null]). *)
Theorem hasValues_known_types m :
  In m.(Metadata.settings).(Metadata.type) ["terms"; "integer"; "float"] ->
  (Metadata.hasValues m = true
   <-> (m.(Metadata.settings).(Metadata.type) = "terms"
        /\ exists l, m.(Metadata.settings).(Metadata.values) = val l /\ l <> [])
       \/ ((m.(Metadata.settings).(Metadata.type) = "integer"
            \/ m.(Metadata.settings).(Metadata.type) = "float")
           /\ m.(Metadata.settings).(Metadata.min) <> null
           /\ m.(Metadata.settings).(Metadata.max) <> null)).
Proof.
  intros Hknown. unfold Metadata.hasValues, Metadata.isTerms.
  destruct (Js.strict_eq _ "terms") eqn:Hterms.
  - apply strict_eq_true in Hterms. rewrite values_length_gt_zero. split.
    + intros Hvalues. left. split; assumption.
    + intros [[_ Hvalues] | [[Heq | Heq] _]];
        [assumption | rewrite Hterms in Heq; discriminate Heq
         | rewrite Hterms in Heq; discriminate Heq].
  - apply strict_eq_false in Hterms.
    rewrite andb_true_iff, !strict_ne_null_true. split.
    + intros [Hmax Hmin]. right. split; [| split; assumption].
      destruct Hknown as [Heq | [Heq | [Heq | []]]];
        [symmetry in Heq; contradiction | now left | now right].
    + intros [[Heq _] | (_ & Hmin & Hmax)]; [contradiction | split; assumption].
Qed.

End MetadataMoreFacts.

(** X11, witness: an integer metadata with both bounds. *)
Lemma hasValues_known_types_witness :
  In (Metadata.type (Metadata.settings Samples.word_count)) ["terms"; "integer"; "float"]
  /\ Metadata.hasValues Samples.word_count = true.
Proof.
  assert (Hknown : In (Metadata.type (Metadata.settings Samples.word_count))
                      ["terms"; "integer"; "float"]) by (right; left; reflexivity).
  split; [exact Hknown |].
  apply (proj2 (hasValues_known_types Samples.word_count Hknown)).
  right. split; [left; reflexivity | split; discriminate].
Defined.

(** * The workflows *)

Lemma append_assoc (a b c : string) : ((a ++ b) ++ c)%string = (a ++ (b ++ c))%string.
Proof.
  induction a as [|ch a IH]; [reflexivity |].
  change (String ch ((a ++ b) ++ c)%string = String ch (a ++ (b ++ c))%string).
  now rewrite IH.
Qed.

Lemma length_append (a b : string) :
  String.length (a ++ b)%string = String.length a + String.length b.
Proof.
  induction a as [|ch a IH]; [reflexivity |].
  change (S (String.length (a ++ b)%string) = S (String.length a + String.length b)).
  now rewrite IH.
Qed.

Lemma prefix_iff (p s : string) :
  String.prefix p s = true <-> exists rest, s = (p ++ rest)%string.
Proof.
  revert s. induction p as [|ch p IH]; intros s.
  - split; [intros _; exists s; reflexivity | intros _; destruct s; reflexivity].
  - destruct s as [|ch' s]; cbn [String.prefix].
    + split; [discriminate | intros (rest & Hrest); discriminate Hrest].
    + destruct (Ascii.ascii_dec ch ch') as [<- | Hne].
      * rewrite IH. split; intros (rest & Hrest); exists rest.
        -- change (String ch s = String ch (p ++ rest)%string). now rewrite Hrest.
        -- change (String ch s = String ch (p ++ rest)%string) in Hrest.
           now injection Hrest.
      * split; [discriminate |]. intros (rest & Hrest).
        change (String ch' s = String ch (p ++ rest)%string) in Hrest.
        injection Hrest as Hch _. now contradiction Hne.
Qed.

(** ** Generate Docker tags *)

(** X12: the script adds the tag [<image>:latest] exactly when the reference
    being built starts with [refs/tags/]; the versioned Docker Hub tag and
    the Google registry tag are written in either case. *)
Theorem latest_tag_iff_tag_ref (name tag ref : string) :
  (BuildWorkflow.generate_docker_tags name tag ref
   = ("tags=" ++ name ++ ":" ++ tag ++ "," ++ name ++ ":latest" ++ ","
      ++ BuildWorkflow.GCP_REGISTRY_TAG name tag)%string
   <-> exists rest, ref = ("refs/tags/" ++ rest)%string)
  /\ (BuildWorkflow.generate_docker_tags name tag ref
      = ("tags=" ++ name ++ ":" ++ tag ++ ","
         ++ BuildWorkflow.GCP_REGISTRY_TAG name tag)%string
      <-> ~ exists rest, ref = ("refs/tags/" ++ rest)%string).
Proof.
  assert (Hdiffer :
            ("tags=" ++ name ++ ":" ++ tag ++ "," ++ name ++ ":latest" ++ ","
             ++ BuildWorkflow.GCP_REGISTRY_TAG name tag)%string
            <> ("tags=" ++ name ++ ":" ++ tag ++ ","
                ++ BuildWorkflow.GCP_REGISTRY_TAG name tag)%string).
  { intros Heq. do 5 apply (inj (String.append _)) in Heq.
    apply (f_equal String.length) in Heq. rewrite !length_append in Heq.
    cbn [String.length] in Heq. lia. }
  unfold BuildWorkflow.generate_docker_tags, BuildWorkflow.DOCKER_HUB_TAGS.
  rewrite <- (prefix_iff "refs/tags/" ref). fold (BuildWorkflow.is_tag_ref ref).
  destruct (BuildWorkflow.is_tag_ref ref); rewrite !append_assoc; split; split.
  - reflexivity.
  - reflexivity.
  - intros Heq. now contradiction Hdiffer.
  - intros Hno. now contradiction Hno.
  - intros Heq. symmetry in Heq. now contradiction Hdiffer.
  - discriminate.
  - intros _. discriminate.
  - reflexivity.
Qed.

(** ** Build, then deploy *)

(** X13: called with the image name and the version the build workflow
    tagged, the deploy workflow deploys the image of the Google registry tag
    that the build pushed, the last tag of the line "Generate Docker tags"
    writes, whatever the reference built. *)
Theorem deployed_image_is_the_pushed_one (c : DeployWorkflow.Context) (name version ref : string) :
  DeployWorkflow.inputs c "image-name" = name ->
  DeployWorkflow.inputs c "image-version" = version ->
  DeployRun.input_received c "image" DeployWorkflow.deploy_in_cloud_run
  = BuildWorkflow.GCP_REGISTRY_TAG name version
  /\ BuildWorkflow.generate_docker_tags name version ref
     = ("tags=" ++ BuildWorkflow.DOCKER_HUB_TAGS name version ref ++ ","
        ++ DeployRun.input_received c "image" DeployWorkflow.deploy_in_cloud_run)%string.
Proof.
  intros Hname Hversion.
  assert (Himage : DeployRun.input_received c "image" DeployWorkflow.deploy_in_cloud_run
                   = BuildWorkflow.GCP_REGISTRY_TAG name version).
  { unfold DeployRun.input_received, BuildWorkflow.GCP_REGISTRY_TAG, BuildWorkflow.registry.
    cbn [DeployWorkflow.deploy_in_cloud_run DeployWorkflow.inputs_with DeployWorkflow.input
         String.eqb Ascii.eqb Bool.eqb DeployWorkflow.expand fold_right DeployWorkflow.eval].
    rewrite Hname, Hversion, append_empty_r. reflexivity. }
  split; [exact Himage |]. now rewrite Himage.
Qed.

(** X13, witness. *)
Lemma deployed_image_is_the_pushed_one_witness :
  DeployRun.input_received (DeployRun.sample "s") "image" DeployWorkflow.deploy_in_cloud_run
  = "europe-docker.pkg.dev/argilla-ci/argilla/argilla-quickstart:pr-4100"
  /\ BuildWorkflow.generate_docker_tags "argilla/argilla-quickstart" "pr-4100"
       "refs/pull/4100/merge"
     = ("tags=argilla/argilla-quickstart:pr-4100,"
        ++ DeployRun.input_received (DeployRun.sample "s") "image"
             DeployWorkflow.deploy_in_cloud_run)%string.
Proof.
  exact (deployed_image_is_the_pushed_one (DeployRun.sample "s")
           "argilla/argilla-quickstart" "pr-4100" "refs/pull/4100/merge"
           eq_refl eq_refl).
Defined.

(** ** Deploy in Cloud Run *)

Lemma expand_same_but_secrets (c c' : DeployWorkflow.Context) (t : DeployWorkflow.Template) :
  DeployRun.same_but_secrets c c' ->
  Forall (fun p => match p with DeployWorkflow.Secret _ => False | _ => True end) t ->
  DeployWorkflow.expand c t = DeployWorkflow.expand c' t.
Proof.
  intros [Hinputs Houtputs] Hfree.
  induction Hfree as [|p t Hp _ IH]; [reflexivity |].
  cbn [DeployWorkflow.expand fold_right]. fold (DeployWorkflow.expand c t).
  fold (DeployWorkflow.expand c' t). rewrite IH. f_equal.
  destruct p; cbn [DeployWorkflow.eval]; [reflexivity | apply Hinputs | contradiction
                                          | apply Houtputs].
Qed.

(** X14: what the step "Deploy in Cloud Run" hands to the action, and so
    what reaches the deployed service, does not depend on any secret of the
    run: two runs with the same inputs and the same step outputs deploy with
    the same [with:] entries, flags and environment. *)
Theorem deploy_step_reads_no_secret (c c' : DeployWorkflow.Context) :
  DeployRun.same_but_secrets c c' ->
  DeployRun.inputs_received c DeployWorkflow.deploy_in_cloud_run
  = DeployRun.inputs_received c' DeployWorkflow.deploy_in_cloud_run
  /\ DeployWorkflow.flags_passed c DeployWorkflow.deploy_in_cloud_run
     = DeployWorkflow.flags_passed c' DeployWorkflow.deploy_in_cloud_run
  /\ DeployWorkflow.environment c DeployWorkflow.deploy_in_cloud_run
     = DeployWorkflow.environment c' DeployWorkflow.deploy_in_cloud_run.
Proof.
  intros Hsame.
  assert (Hexpand : forall t,
             Forall (fun p => match p with DeployWorkflow.Secret _ => False | _ => True end) t ->
             DeployWorkflow.expand c t = DeployWorkflow.expand c' t)
    by (intros t; now apply expand_same_but_secrets).
  unfold DeployRun.inputs_received, DeployWorkflow.flags_passed, DeployWorkflow.environment.
  cbn [DeployWorkflow.deploy_in_cloud_run DeployWorkflow.inputs_with DeployWorkflow.env_vars
       DeployWorkflow.input String.eqb Ascii.eqb Bool.eqb map fst snd].
  rewrite !(Hexpand [DeployWorkflow.StepOutput _ _]) by (repeat constructor).
  rewrite !(Hexpand [DeployWorkflow.Text _]) by (repeat constructor).
  rewrite (Hexpand [DeployWorkflow.Text _; DeployWorkflow.Input _]) by (repeat constructor).
  rewrite (Hexpand [DeployWorkflow.Text _; DeployWorkflow.Input _; DeployWorkflow.Text _;
                    DeployWorkflow.Input _]) by (repeat constructor).
  repeat split.
Qed.

(** X14, witness: two runs that differ in every secret. *)
Lemma deploy_step_reads_no_secret_witness :
  DeployRun.same_but_secrets (DeployRun.sample "first") (DeployRun.sample "second")
  /\ DeployWorkflow.secrets (DeployRun.sample "first") "GOOGLE_CLOUD_WIP"
     <> DeployWorkflow.secrets (DeployRun.sample "second") "GOOGLE_CLOUD_WIP"
  /\ DeployWorkflow.environment (DeployRun.sample "first") DeployWorkflow.deploy_in_cloud_run
     = DeployWorkflow.environment (DeployRun.sample "second") DeployWorkflow.deploy_in_cloud_run.
Proof.
  assert (Hsame : DeployRun.same_but_secrets (DeployRun.sample "first")
                    (DeployRun.sample "second")) by (split; reflexivity).
  split; [exact Hsame |]. split; [discriminate |].
  exact (proj2 (proj2 (deploy_step_reads_no_secret _ _ Hsame))).
Defined.

(** X15: in every run the step passes exactly seven flags, among them
    [--allow-unauthenticated] and [--no-cpu-throttling], sets exactly seven
    variables on the service, telemetry switched off, and deploys the service
    [argilla-quickstart-<image-version>] to the region europe-southwest1. *)
Theorem deploy_step_exactly (c : DeployWorkflow.Context) :
  DeployWorkflow.flags_passed c DeployWorkflow.deploy_in_cloud_run
  = ["--min-instances=1"; "--max-instances=1"; "--port=6900"; "--cpu=2000m";
     "--memory=2048Mi"; "--no-cpu-throttling"; "--allow-unauthenticated"]
  /\ map fst (DeployWorkflow.environment c DeployWorkflow.deploy_in_cloud_run)
     = ["OWNER_PASSWORD"; "OWNER_API_KEY"; "ADMIN_PASSWORD"; "ADMIN_API_KEY";
        "ANNOTATOR_PASSWORD"; "ANNOTATOR_API_KEY"; "ARGILLA_ENABLE_TELEMETRY"]
  /\ DeployWorkflow.env_lookup "ARGILLA_ENABLE_TELEMETRY"
       (DeployWorkflow.environment c DeployWorkflow.deploy_in_cloud_run) = Some "0"
  /\ DeployRun.input_received c "service" DeployWorkflow.deploy_in_cloud_run
     = ("argilla-quickstart-" ++ DeployWorkflow.inputs c "image-version")%string
  /\ DeployRun.input_received c "region" DeployWorkflow.deploy_in_cloud_run
     = "europe-southwest1".
Proof.
  split; [reflexivity |]. split; [reflexivity |]. split; [reflexivity |].
  split; [| reflexivity].
  unfold DeployRun.input_received.
  cbn [DeployWorkflow.deploy_in_cloud_run DeployWorkflow.inputs_with DeployWorkflow.input
       String.eqb Ascii.eqb Bool.eqb DeployWorkflow.expand fold_right DeployWorkflow.eval].
  now rewrite append_empty_r.
Qed.

(** X16: the credentials posted to Slack are the ones set on the deployed
    service, and the URL posted to Slack and written in the pull request
    comment is the [url] output of the deploy step; the comment is the fixed
    sentence, that URL and a line break. *)
Theorem posted_credentials_are_the_deployed_ones (c : DeployWorkflow.Context) :
  let environment := DeployWorkflow.environment c DeployWorkflow.deploy_in_cloud_run in
  let posted key := DeployRun.input_received c key DeployWorkflow.post_credentials_in_slack in
  DeployWorkflow.env_lookup "OWNER_PASSWORD" environment = Some (posted "owner")
  /\ DeployWorkflow.env_lookup "ADMIN_PASSWORD" environment = Some (posted "admin")
  /\ DeployWorkflow.env_lookup "ANNOTATOR_PASSWORD" environment = Some (posted "annotator")
  /\ posted "url" = DeployWorkflow.steps_outputs c "deploy" "url"
  /\ DeployRun.input_received c "message" DeployWorkflow.comment_pr_with_cloud_run_url
     = ("The URL of the deployed environment for this PR is " ++ posted "url"
        ++ DeployWorkflow.line_break)%string
  /\ DeployWorkflow.id DeployWorkflow.deploy_in_cloud_run = Some "deploy".
Proof.
  intros environment posted. subst environment posted.
  unfold DeployRun.input_received.
  cbn [DeployWorkflow.post_credentials_in_slack DeployWorkflow.comment_pr_with_cloud_run_url
       DeployWorkflow.inputs_with DeployWorkflow.input String.eqb Ascii.eqb Bool.eqb
       DeployWorkflow.expand fold_right DeployWorkflow.eval].
  rewrite !append_empty_r.
  assert (Hexpand : forall step output,
             DeployWorkflow.expand c [DeployWorkflow.StepOutput step output]
             = DeployWorkflow.steps_outputs c step output).
  { intros step output. cbn [DeployWorkflow.expand fold_right DeployWorkflow.eval].
    apply append_empty_r. }
  cbn -[DeployWorkflow.expand]. rewrite !Hexpand. repeat split.
Qed.

(** X17: no step of the job reads an output of a step that has not run yet:
    every [steps.<id>.outputs] expression of a step names the [id:] of a step
    earlier in the job. *)
Theorem steps_read_earlier_outputs (before after : list DeployWorkflow.Step)
    (s : DeployWorkflow.Step) (step : string) :
  DeployWorkflow.deploy = (before ++ s :: after)%list ->
  In step (StepReferences.of_step s) ->
  In step (StepReferences.ids before).
Proof.
  intros Hjob Hreads. unfold DeployWorkflow.deploy in Hjob.
  repeat (destruct before as [|? before];
          [ injection Hjob as <- <-; cbn in Hreads |- *; tauto
          | injection Hjob as <- Hjob ]).
  destruct before; discriminate Hjob.
Qed.

(** X17, witness: the deploy step reads the outputs of [credentials]. *)
Lemma steps_read_earlier_outputs_witness :
  DeployWorkflow.deploy
  = ([DeployWorkflow.checkout; DeployWorkflow.authenticate_to_google_cloud;
      DeployWorkflow.generate_credentials]
     ++ DeployWorkflow.deploy_in_cloud_run
        :: [DeployWorkflow.post_credentials_in_slack;
            DeployWorkflow.comment_pr_with_cloud_run_url])%list
  /\ In "credentials" (StepReferences.of_step DeployWorkflow.deploy_in_cloud_run)
  /\ In "credentials"
       (StepReferences.ids
          [DeployWorkflow.checkout; DeployWorkflow.authenticate_to_google_cloud;
           DeployWorkflow.generate_credentials]).
Proof.
  split; [reflexivity |]. split; [left; reflexivity |].
  apply (steps_read_earlier_outputs _
           [DeployWorkflow.post_credentials_in_slack;
            DeployWorkflow.comment_pr_with_cloud_run_url]
           DeployWorkflow.deploy_in_cloud_run "credentials");
    [reflexivity | left; reflexivity].
Defined.

(** * The settings form of the fields *)

Section SettingsFieldsFacts.

Context {Field : Type} `{!SettingsFields.FieldInterface Field}.

(** X18: "Update" is enabled exactly for a modified field that is valid,
    "Cancel" exactly for a modified field; so whenever "Update" is enabled
    "Cancel" is too, and an unmodified field can be neither updated nor
    restored. *)
Theorem update_enabled_iff (field : Field) :
  (SettingsFields.update_disabled field = false
   <-> SettingsFields.isModified field = true /\ SettingsFields.isFieldValid field = true)
  /\ (SettingsFields.cancel_disabled field = false
      <-> SettingsFields.isModified field = true)
  /\ (SettingsFields.update_disabled field = false ->
      SettingsFields.cancel_disabled field = false).
Proof.
  unfold SettingsFields.update_disabled, SettingsFields.cancel_disabled.
  destruct (SettingsFields.isModified field), (SettingsFields.isFieldValid field);
    cbn; repeat split; intros; try tauto; try discriminate; intuition discriminate.
Qed.

End SettingsFieldsFacts.

(** X18, witness: a modified, valid field. *)
Lemma update_enabled_iff_witness :
  SettingsFields.update_disabled (true, true) = false
  /\ SettingsFields.cancel_disabled (true, true) = false.
Proof.
  split; [reflexivity |].
  exact (proj2 (proj2 (update_enabled_iff (true, true))) eq_refl).
Defined.

(** * The suggestion helpers of the spaCy-LLM tutorial *)

Section TextcatFacts.

Context {Score : Type} (gt : Score -> Score -> bool).

(** [>] on the scores at hand is the strict part of a total preorder, as it
    is on floats other than NaN. *)
Hypothesis gt_asymmetric : forall a b, gt a b = true -> gt b a = false.
Hypothesis gt_negatively_transitive :
  forall a b c, gt a c = true -> gt a b = true \/ gt b c = true.

Lemma get_of_key (d : SpacyLlmTutorial.Cats) (k : string) :
  In k (map fst d) -> exists s : Score, SpacyLlmTutorial.get d k = Some s.
Proof.
  induction d as [|[k' v] d IH]; cbn [map fst In SpacyLlmTutorial.get]; [intros [] |].
  intros [-> | Hin].
  - rewrite String.eqb_refl. now exists v.
  - destruct (String.eqb k' k); [now exists v | now apply IH].
Qed.

(** The loop keeps the first of the items with the greatest key: everything
    before the held item has a smaller key, nothing after it a greater one. *)
Lemma max_loop_first_greatest (key : string -> option Score)
    (items before held_after : list string) (held : string) (held_key : Score) :
  key held = Some held_key ->
  (forall x, In x items -> exists s, key x = Some s) ->
  (forall x sx, In x before -> key x = Some sx -> gt held_key sx = true) ->
  (forall x sx, In x held_after -> key x = Some sx -> gt sx held_key = false) ->
  exists earlier k later s,
    (before ++ held :: held_after ++ items = earlier ++ k :: later)%list
    /\ SpacyLlmTutorial.max_loop gt key held (Some held_key) items = inr k
    /\ key k = Some s
    /\ (forall x sx, In x earlier -> key x = Some sx -> gt s sx = true)
    /\ (forall x sx, In x later -> key x = Some sx -> gt sx s = false).
Proof.
  revert before held_after held held_key.
  induction items as [|item items IH]; intros before held_after held held_key
    Hheld Hkeys Hbefore Hafter.
  - exists before, held, held_after, held_key. rewrite app_nil_r. repeat split; assumption.
  - destruct (Hkeys item (or_introl eq_refl)) as [a Ha].
    cbn [SpacyLlmTutorial.max_loop]. rewrite Ha.
    destruct (gt a held_key) eqn:Hgt.
    + destruct (IH (before ++ held :: held_after)%list [] item a Ha) as
        (earlier & k & later & s & Hlist & Hresult & Hk & Hearlier & Hlater).
      * intros x Hx. apply Hkeys. now right.
      * intros x sx Hx Hsx. apply in_app_or in Hx as [Hx | [<- | Hx]].
        -- destruct (gt_negatively_transitive a sx held_key Hgt) as [Hdone | Hcontra];
             [assumption |].
           rewrite (gt_asymmetric _ _ (Hbefore x sx Hx Hsx)) in Hcontra. discriminate.
        -- rewrite Hheld in Hsx. injection Hsx as <-. assumption.
        -- destruct (gt_negatively_transitive a sx held_key Hgt) as [Hdone | Hcontra];
             [assumption |].
           rewrite (Hafter x sx Hx Hsx) in Hcontra. discriminate.
      * intros x sx [].
      * exists earlier, k, later, s. repeat split; try assumption.
        rewrite <- Hlist. cbn [app]. now rewrite <- app_assoc.
    + destruct (IH before (held_after ++ [item])%list held held_key Hheld) as
        (earlier & k & later & s & Hlist & Hresult & Hk & Hearlier & Hlater).
      * intros x Hx. apply Hkeys. now right.
      * assumption.
      * intros x sx Hx Hsx. apply in_app_or in Hx as [Hx | [<- | []]].
        -- now apply (Hafter x).
        -- rewrite Ha in Hsx. injection Hsx as <-. assumption.
      * exists earlier, k, later, s. repeat split; try assumption.
        rewrite <- Hlist. now rewrite <- app_assoc.
Qed.

(** X19: for a non-empty [doc.cats], [get_textcat_suggestion] returns the
    label with the greatest score, the first such label in the order of the
    dict when several share it: every label before it has a smaller score
    and no label after it has a greater one. *)
Theorem get_textcat_suggestion_first_greatest (cats : SpacyLlmTutorial.Cats) :
  cats <> [] ->
  exists earlier k later s,
    map fst cats = (earlier ++ k :: later)%list
    /\ SpacyLlmTutorial.get_textcat_suggestion gt cats = inr k
    /\ SpacyLlmTutorial.get cats k = Some s
    /\ (forall x sx, In x earlier -> SpacyLlmTutorial.get cats x = Some sx ->
                     gt s sx = true)
    /\ (forall x sx, In x later -> SpacyLlmTutorial.get cats x = Some sx ->
                     gt sx s = false).
Proof.
  intros Hnonempty. unfold SpacyLlmTutorial.get_textcat_suggestion, SpacyLlmTutorial.max_by.
  destruct cats as [|[k0 v0] cats]; [contradiction |].
  assert (Hkeys : forall x, In x (map fst ((k0, v0) :: cats)) ->
                            exists s, SpacyLlmTutorial.get ((k0, v0) :: cats) x = Some s)
    by (intros x; apply get_of_key).
  cbn [map fst] in Hkeys |- *.
  destruct (Hkeys k0 (or_introl eq_refl)) as [s0 Hs0]. rewrite Hs0.
  destruct (max_loop_first_greatest (SpacyLlmTutorial.get ((k0, v0) :: cats))
              (map fst cats) [] [] k0 s0 Hs0) as
    (earlier & k & later & s & Hlist & Hresult & Hk & Hearlier & Hlater).
  - intros x Hx. apply Hkeys. now right.
  - intros x sx [].
  - intros x sx [].
  - exists earlier, k, later, s. repeat split; assumption.
Qed.

End TextcatFacts.

(** X19, edge: an empty [doc.cats] makes [max] raise [ValueError]. *)
Example get_textcat_suggestion_empty :
  SpacyLlmTutorial.get_textcat_suggestion Z.gtb [] = inl SpacyLlmTutorial.ValueError.
Proof. reflexivity. Qed.

Lemma Z_gtb_asymmetric (a b : Z) : Z.gtb a b = true -> Z.gtb b a = false.
Proof. rewrite !Z.gtb_ltb. intros H. apply Z.ltb_lt in H. apply Z.ltb_ge. lia. Qed.

Lemma Z_gtb_negatively_transitive (a b c : Z) :
  Z.gtb a c = true -> Z.gtb a b = true \/ Z.gtb b c = true.
Proof.
  rewrite !Z.gtb_ltb, !Z.ltb_lt. lia.
Qed.

(** X19, witness: SPORTS and MUSIC share the greatest score; SPORTS comes
    first. *)
Lemma get_textcat_suggestion_witness :
  SpacyLlmTutorial.sample_cats <> []
  /\ SpacyLlmTutorial.get_textcat_suggestion Z.gtb SpacyLlmTutorial.sample_cats
     = inr "SPORTS"
  /\ exists earlier k later s,
       map fst SpacyLlmTutorial.sample_cats = (earlier ++ k :: later)%list
       /\ SpacyLlmTutorial.get_textcat_suggestion Z.gtb SpacyLlmTutorial.sample_cats = inr k
       /\ SpacyLlmTutorial.get SpacyLlmTutorial.sample_cats k = Some s
       /\ (forall x sx, In x earlier ->
                        SpacyLlmTutorial.get SpacyLlmTutorial.sample_cats x = Some sx ->
                        Z.gtb s sx = true)
       /\ (forall x sx, In x later ->
                        SpacyLlmTutorial.get SpacyLlmTutorial.sample_cats x = Some sx ->
                        Z.gtb sx s = false).
Proof.
  split; [discriminate |]. split; [reflexivity |].
  apply (get_textcat_suggestion_first_greatest Z.gtb Z_gtb_asymmetric
           Z_gtb_negatively_transitive SpacyLlmTutorial.sample_cats).
  discriminate.
Defined.

Section SummarizationFacts.

Context {Sentence Word : Type} {Sentence_eq_dec : EqDecision Sentence}.
Context (tokens : Sentence -> list Word) (str : Sentence -> string).

Implicit Types (c : SpacyLlmTutorial.Counter (Sentence := Sentence)).
Implicit Types (k s : Sentence) (sents : list Sentence).

Local Abbreviation score := (SpacyLlmTutorial.score tokens).
Local Abbreviation well_formed := SpacyLlmTutorial.well_formed.

(** *** The counter *)

Lemma count_increment c s k :
  SpacyLlmTutorial.count (SpacyLlmTutorial.increment c s) k
  = if decide (s = k) then S (SpacyLlmTutorial.count c k) else SpacyLlmTutorial.count c k.
Proof.
  induction c as [|[k' n] c IH]; cbn [SpacyLlmTutorial.increment SpacyLlmTutorial.count].
  - destruct (decide (s = k)); reflexivity.
  - destruct (decide (k' = s)) as [-> | Hne]; cbn [SpacyLlmTutorial.count].
    + destruct (decide (s = k)); reflexivity.
    + destruct (decide (k' = k)) as [-> | Hne'].
      * destruct (decide (s = k)) as [-> | _]; [contradiction | reflexivity].
      * apply IH.
Qed.

Lemma count_count_words c s k :
  SpacyLlmTutorial.count (SpacyLlmTutorial.count_words tokens c s) k
  = SpacyLlmTutorial.count c k + (if decide (s = k) then length (tokens s) else 0).
Proof.
  unfold SpacyLlmTutorial.count_words. generalize (tokens s) as ws. intros ws. revert c.
  induction ws as [|w ws IH]; intros c; cbn [foldl length].
  - destruct (decide (s = k)); lia.
  - rewrite IH, count_increment. destruct (decide (s = k)); lia.
Qed.

Lemma count_foldl_count_words c sents k :
  SpacyLlmTutorial.count (foldl (SpacyLlmTutorial.count_words tokens) c sents) k
  = SpacyLlmTutorial.count c k + score sents k.
Proof.
  unfold SpacyLlmTutorial.score. revert c.
  induction sents as [|s sents IH]; intros c; cbn [foldl count_occ].
  - lia.
  - rewrite IH, count_count_words.
    destruct (decide (s = k)) as [-> | Hne]; lia.
Qed.

Lemma in_keys_increment c s k :
  In k (map fst (SpacyLlmTutorial.increment c s)) <-> k = s \/ In k (map fst c).
Proof.
  induction c as [|[k' n] c IH]; cbn [SpacyLlmTutorial.increment map fst In].
  - intuition.
  - destruct (decide (k' = s)) as [-> | Hne]; cbn [map fst In]; [| rewrite IH];
      intuition congruence.
Qed.

Lemma well_formed_increment c s :
  well_formed c -> well_formed (SpacyLlmTutorial.increment c s).
Proof.
  intros [Hnodup Hpos]. induction c as [|[k' n] c IH];
    cbn [SpacyLlmTutorial.increment].
  - split; [repeat constructor; intros [] |].
    intros k n [Heq | []]. injection Heq as <- <-. lia.
  - cbn [map fst] in Hnodup. apply NoDup_cons_iff in Hnodup as [Hfresh Hnodup].
    destruct (decide (k' = s)) as [-> | Hne].
    + split; [cbn [map fst]; now apply NoDup_cons |].
      intros k m [Heq | Hin]; [injection Heq as <- <-; lia |].
      apply (Hpos k m). now right.
    + destruct IH as [IHnodup IHpos]; [assumption | |].
      { intros k m Hin. apply (Hpos k m). now right. }
      split.
      * cbn [map fst]. apply NoDup_cons; [| assumption].
        rewrite in_keys_increment. intros [-> | Hin]; contradiction.
      * intros k m [Heq | Hin]; [| now apply (IHpos k m)].
        apply (Hpos k m). now left.
Qed.

Lemma well_formed_foldl_count_words c sents :
  well_formed c -> well_formed (foldl (SpacyLlmTutorial.count_words tokens) c sents).
Proof.
  revert c. induction sents as [|s sents IH]; intros c Hc; [assumption |].
  cbn [foldl]. apply IH. unfold SpacyLlmTutorial.count_words.
  generalize (tokens s) as ws. intros ws. revert c Hc.
  induction ws as [|w ws IHws]; intros c Hc; [assumption |].
  cbn [foldl]. apply IHws. now apply well_formed_increment.
Qed.

Lemma count_of_entry c k n :
  List.NoDup (map fst c) -> In (k, n) c -> SpacyLlmTutorial.count c k = n.
Proof.
  induction c as [|[k' m] c IH]; cbn [map fst In SpacyLlmTutorial.count]; [intros _ [] |].
  intros Hnodup. apply NoDup_cons_iff in Hnodup as [Hfresh Hnodup].
  intros [Heq | Hin].
  - injection Heq as -> ->. now rewrite decide_True.
  - destruct (decide (k' = k)) as [-> | Hne]; [| now apply IH].
    exfalso. apply Hfresh. apply in_map_iff. exists (k, n). split; [reflexivity | assumption].
Qed.

Lemma count_positive_iff c k :
  well_formed c -> (0 < SpacyLlmTutorial.count c k <-> In k (map fst c)).
Proof.
  intros [Hnodup Hpos]. split.
  - clear Hnodup Hpos. induction c as [|[k' n] c IH]; cbn [SpacyLlmTutorial.count map fst In];
      [lia |].
    destruct (decide (k' = k)) as [-> | Hne]; [now left | right; now apply IH].
  - intros Hin. apply in_map_iff in Hin as ([k' n] & Hk & Hin). cbn [fst] in Hk. subst k'.
    rewrite (count_of_entry c k n Hnodup Hin). now apply (Hpos k n).
Qed.

Lemma well_formed_sentence_scores sents :
  well_formed (SpacyLlmTutorial.sentence_scores tokens sents).
Proof.
  apply well_formed_foldl_count_words. split; [constructor | intros k n []].
Qed.

Lemma count_sentence_scores sents k :
  SpacyLlmTutorial.count (SpacyLlmTutorial.sentence_scores tokens sents) k = score sents k.
Proof. unfold SpacyLlmTutorial.sentence_scores. now rewrite count_foldl_count_words. Qed.

Lemma in_keys_sentence_scores sents k :
  In k (map fst (SpacyLlmTutorial.sentence_scores tokens sents))
  <-> In k sents /\ tokens k <> [].
Proof.
  rewrite <- (count_positive_iff _ k (well_formed_sentence_scores sents)),
    count_sentence_scores.
  unfold SpacyLlmTutorial.score.
  rewrite (count_occ_In (fun x y => decide (x = y)) sents k).
  destruct (tokens k) as [|w ws]; cbn [length]; split.
  - lia.
  - intros [_ Hne]. now contradiction Hne.
  - intros Hpos. split; [nia | discriminate].
  - intros [Hin _]. nia.
Qed.

(** X20: the counter holds, for every sentence, one count per token for each
    time [doc.sents] yields it; a sentence gets an entry exactly when it is
    in [doc.sents] and has a token, and no sentence gets two entries. *)
Theorem sentence_scores_counts sents k :
  SpacyLlmTutorial.count (SpacyLlmTutorial.sentence_scores tokens sents) k = score sents k
  /\ (In k (map fst (SpacyLlmTutorial.sentence_scores tokens sents))
      <-> In k sents /\ tokens k <> [])
  /\ List.NoDup (map fst (SpacyLlmTutorial.sentence_scores tokens sents)).
Proof.
  split; [apply count_sentence_scores |].
  split; [apply in_keys_sentence_scores | apply well_formed_sentence_scores].
Qed.

(** *** The stable descending sort *)

Local Abbreviation descending := SpacyLlmTutorial.descending.

Lemma insert_descending_permutation (x : Sentence * nat) (l : list (Sentence * nat)) :
  Permutation (SpacyLlmTutorial.insert_descending x l) (x :: l).
Proof.
  induction l as [|y l IH]; cbn [SpacyLlmTutorial.insert_descending]; [reflexivity |].
  destruct (Nat.ltb (snd x) (snd y)); [| reflexivity].
  rewrite IH. apply perm_swap.
Qed.

Lemma sorted_descending_permutation c :
  Permutation (SpacyLlmTutorial.sorted_descending c) c.
Proof.
  induction c as [|x c IH]; cbn [SpacyLlmTutorial.sorted_descending fold_right];
    [reflexivity |].
  fold (SpacyLlmTutorial.sorted_descending c).
  rewrite insert_descending_permutation. now apply perm_skip.
Qed.

Lemma insert_descending_sorted (x : Sentence * nat) (l : list (Sentence * nat)) :
  descending l -> descending (SpacyLlmTutorial.insert_descending x l).
Proof.
  unfold SpacyLlmTutorial.descending.
  induction l as [|y l IH]; intros Hsorted; cbn [SpacyLlmTutorial.insert_descending].
  - repeat constructor.
  - apply StronglySorted_inv in Hsorted as [Hl Hy].
    destruct (Nat.ltb (snd x) (snd y)) eqn:Hlt.
    + apply Nat.ltb_lt in Hlt. constructor; [now apply IH |].
      rewrite Forall_forall in Hy |- *. intros z Hz.
      apply (Permutation_in _ (insert_descending_permutation x l)) in Hz as [<- | Hz];
        [lia | now apply Hy].
    + apply Nat.ltb_ge in Hlt. constructor; [now constructor |].
      constructor; [assumption |].
      rewrite Forall_forall in Hy |- *. intros z Hz. specialize (Hy z Hz). lia.
Qed.

Lemma sorted_descending_sorted c : descending (SpacyLlmTutorial.sorted_descending c).
Proof.
  induction c as [|x c IH]; cbn [SpacyLlmTutorial.sorted_descending fold_right].
  - constructor.
  - now apply insert_descending_sorted.
Qed.

(** In a descending list nothing left behind by [[:n]] beats anything
    taken. *)
Lemma descending_firstn_skipn (n : nat) (l : list (Sentence * nat)) x y :
  descending l -> In x (firstn n l) -> In y (skipn n l) -> snd y <= snd x.
Proof.
  unfold SpacyLlmTutorial.descending. revert n.
  induction l as [|z l IH]; intros n Hsorted Hx Hy.
  - rewrite firstn_nil in Hx. destruct Hx.
  - destruct n as [|n]; [destruct Hx |].
    apply StronglySorted_inv in Hsorted as [Hl Hz].
    cbn [firstn skipn In] in Hx, Hy. destruct Hx as [<- | Hx].
    + rewrite Forall_forall in Hz. apply Hz.
      rewrite <- (firstn_skipn n l). apply in_or_app. now right.
    + now apply (IH n).
Qed.

(** The stable sort is headed by the first of the entries with the greatest
    count. *)
Lemma sorted_descending_head c :
  c <> [] ->
  exists before y after,
    c = (before ++ y :: after)%list
    /\ hd_error (SpacyLlmTutorial.sorted_descending c) = Some y
    /\ (forall x, In x before -> snd x < snd y)
    /\ (forall x, In x after -> snd x <= snd y).
Proof.
  induction c as [|x c IH]; [intros H; now contradiction H | intros _].
  cbn [SpacyLlmTutorial.sorted_descending fold_right].
  fold (SpacyLlmTutorial.sorted_descending c).
  destruct c as [|x' c'].
  - exists [], x, []. repeat split; intros z [].
  - destruct IH as (before & y & after & Hc & Hhead & Hbefore & Hafter); [discriminate |].
    destruct (SpacyLlmTutorial.sorted_descending (x' :: c')) as [|y' rest] eqn:Hsorted;
      [discriminate Hhead |].
    cbn [hd_error] in Hhead. injection Hhead as ->.
    cbn [SpacyLlmTutorial.insert_descending].
    destruct (Nat.ltb (snd x) (snd y)) eqn:Hlt.
    + apply Nat.ltb_lt in Hlt. exists (x :: before), y, after.
      rewrite Hc. repeat split; try assumption.
      intros z [<- | Hz]; [assumption | now apply Hbefore].
    + apply Nat.ltb_ge in Hlt. exists [], x, (x' :: c').
      repeat split; [intros z [] |].
      intros z Hz. rewrite Hc in Hz. apply in_app_or in Hz as [Hz | [<- | Hz]].
      * specialize (Hbefore z Hz). lia.
      * assumption.
      * specialize (Hafter z Hz). lia.
Qed.

(** *** The sentences of the summary *)

Lemma summary_entries sents s :
  In s (SpacyLlmTutorial.summary_sentences tokens sents) ->
  In (s, score sents s)
     (firstn 2 (SpacyLlmTutorial.sorted_descending
                  (SpacyLlmTutorial.sentence_scores tokens sents))).
Proof.
  unfold SpacyLlmTutorial.summary_sentences, SpacyLlmTutorial.nlargest.
  intros Hin. apply in_map_iff in Hin as ([s' n] & Hs & Hin). cbn [fst] in Hs. subst s'.
  assert (Hentry : In (s, n) (SpacyLlmTutorial.sentence_scores tokens sents)).
  { apply (Permutation_in _ (sorted_descending_permutation _)).
    rewrite <- (firstn_skipn 2 (SpacyLlmTutorial.sorted_descending _)).
    apply in_or_app. now left. }
  destruct (well_formed_sentence_scores sents) as [Hnodup _].
  rewrite <- (count_sentence_scores sents s), (count_of_entry _ s n Hnodup Hentry).
  exact Hin.
Qed.
(** X21: the summary is made of at most two sentences, all different, each a
    sentence of the document with at least one token; the higher score comes
    first, and no sentence left out has a higher score than a sentence
    taken. *)
Theorem summary_sentences_are_the_top_two sents :
  length (SpacyLlmTutorial.summary_sentences tokens sents) <= 2
  /\ List.NoDup (SpacyLlmTutorial.summary_sentences tokens sents)
  /\ (forall s, In s (SpacyLlmTutorial.summary_sentences tokens sents) ->
                In s sents /\ tokens s <> [])
  /\ (forall a b, SpacyLlmTutorial.summary_sentences tokens sents = [a; b] ->
                  score sents b <= score sents a)
  /\ (forall s t, In s (SpacyLlmTutorial.summary_sentences tokens sents) ->
                  In t sents ->
                  ~ In t (SpacyLlmTutorial.summary_sentences tokens sents) ->
                  score sents t <= score sents s).
Proof.
  pose proof (well_formed_sentence_scores sents) as [Hnodup _].
  pose proof (sorted_descending_permutation
                (SpacyLlmTutorial.sentence_scores tokens sents)) as Hperm.
  pose proof (sorted_descending_sorted
                (SpacyLlmTutorial.sentence_scores tokens sents)) as Hsorted.
  split; [| split; [| split; [| split]]].
  - unfold SpacyLlmTutorial.summary_sentences, SpacyLlmTutorial.nlargest.
    rewrite length_map. apply firstn_le_length.
  - unfold SpacyLlmTutorial.summary_sentences, SpacyLlmTutorial.nlargest.
    rewrite <- firstn_map.
    assert (Hkeys : List.NoDup
                      (map fst (SpacyLlmTutorial.sorted_descending
                                  (SpacyLlmTutorial.sentence_scores tokens sents)))).
    { apply (Permutation_NoDup (l := map fst (SpacyLlmTutorial.sentence_scores tokens sents)));
        [apply Permutation_map; now symmetry | assumption]. }
    rewrite <- (firstn_skipn 2 (map fst _)) in Hkeys.
    now apply NoDup_app_remove_r in Hkeys.
  - intros s Hs. apply in_keys_sentence_scores.
    apply summary_entries in Hs. apply in_map_iff. exists (s, score sents s).
    split; [reflexivity |].
    apply (Permutation_in _ Hperm).
    rewrite <- (firstn_skipn 2 (SpacyLlmTutorial.sorted_descending _)).
    apply in_or_app. now left.
  - intros a b Hab.
    assert (Ha : In a (SpacyLlmTutorial.summary_sentences tokens sents))
      by (rewrite Hab; now left).
    assert (Hb : In b (SpacyLlmTutorial.summary_sentences tokens sents))
      by (rewrite Hab; right; now left).
    apply summary_entries in Ha, Hb.
    unfold SpacyLlmTutorial.summary_sentences, SpacyLlmTutorial.nlargest in Hab.
    destruct (SpacyLlmTutorial.sorted_descending _) as [|x [|y rest]];
      cbn [firstn map] in Hab; try discriminate Hab.
    injection Hab as Hx Hy. cbn [firstn In] in Ha, Hb.
    unfold SpacyLlmTutorial.descending in Hsorted.
    apply StronglySorted_inv in Hsorted as [_ Hall].
    apply Forall_inv in Hall.
    assert (Hnodup' : List.NoDup (map fst (x :: y :: rest)))
      by (apply (Permutation_NoDup (l := map fst (SpacyLlmTutorial.sentence_scores tokens sents)));
          [apply Permutation_map; now symmetry | assumption]).
    cbn [map] in Hnodup'. rewrite Hx, Hy in Hnodup'.
    apply NoDup_cons_iff in Hnodup' as [Hfresh _].
    assert (Hne : a <> b) by (intros ->; apply Hfresh; now left).
    destruct Ha as [Ha | [Ha | []]]; destruct Hb as [Hb | [Hb | []]].
    + exfalso. apply Hne. congruence.
    + rewrite Ha, Hb in Hall. exact Hall.
    + exfalso. apply Hne. rewrite Hb in Hx. exact (eq_sym Hx).
    + exfalso. apply Hne. congruence.
  - intros s t Hs Ht Hleft.
    destruct (tokens t) as [|w ws] eqn:Htokens.
    { unfold SpacyLlmTutorial.score at 1. rewrite Htokens. cbn [length]. lia. }
    assert (Hkey : In t (map fst (SpacyLlmTutorial.sentence_scores tokens sents)))
      by (apply in_keys_sentence_scores; split; [assumption | rewrite Htokens; discriminate]).
    apply in_map_iff in Hkey as ([t' n] & Ht' & Hentry). cbn [fst] in Ht'. subst t'.
    assert (Hn : n = score sents t)
      by (rewrite <- (count_sentence_scores sents t); symmetry;
          now apply count_of_entry).
    subst n. apply summary_entries in Hs.
    apply (Permutation_in _ (Permutation_sym Hperm)) in Hentry.
    rewrite <- (firstn_skipn 2 (SpacyLlmTutorial.sorted_descending _)) in Hentry.
    apply in_app_or in Hentry as [Htaken | Hskipped].
    + exfalso. apply Hleft.
      unfold SpacyLlmTutorial.summary_sentences, SpacyLlmTutorial.nlargest.
      apply in_map_iff. exists (t, score sents t). split; [reflexivity | assumption].
    + exact (descending_firstn_skipn 2 _ _ _ Hsorted Hs Hskipped).
Qed.

(** *** Documents whose sentences are distinct and have tokens *)

Lemma increment_fresh c s :
  ~ In s (map fst c) -> SpacyLlmTutorial.increment c s = (c ++ [(s, 1)])%list.
Proof.
  induction c as [|[k n] c IH]; cbn [SpacyLlmTutorial.increment map fst In app];
    [reflexivity |].
  intros Hfresh. destruct (decide (k = s)) as [-> | Hne].
  - exfalso. apply Hfresh. now left.
  - rewrite IH; [reflexivity |]. intros Hin. apply Hfresh. now right.
Qed.

Lemma increment_last c s n :
  ~ In s (map fst c) ->
  SpacyLlmTutorial.increment (c ++ [(s, n)])%list s = (c ++ [(s, S n)])%list.
Proof.
  induction c as [|[k m] c IH]; cbn [SpacyLlmTutorial.increment map fst In app].
  - intros _. now rewrite decide_True.
  - intros Hfresh. destruct (decide (k = s)) as [-> | Hne].
    + exfalso. apply Hfresh. now left.
    + rewrite IH; [reflexivity |]. intros Hin. apply Hfresh. now right.
Qed.

Lemma foldl_increment_last c s n (ws : list Word) :
  ~ In s (map fst c) ->
  foldl (fun c _ => SpacyLlmTutorial.increment c s) (c ++ [(s, n)])%list ws
  = (c ++ [(s, n + length ws)])%list.
Proof.
  intros Hfresh. revert n. induction ws as [|w ws IH]; intros n; cbn [foldl length].
  - now rewrite Nat.add_0_r.
  - rewrite (increment_last c s n Hfresh), IH. do 3 f_equal. lia.
Qed.

Lemma count_words_fresh c s :
  ~ In s (map fst c) -> tokens s <> [] ->
  SpacyLlmTutorial.count_words tokens c s = (c ++ [(s, length (tokens s))])%list.
Proof.
  intros Hfresh Htokens. unfold SpacyLlmTutorial.count_words.
  destruct (tokens s) as [|w ws]; [now contradiction Htokens |].
  cbn [foldl length]. rewrite (increment_fresh c s Hfresh).
  now rewrite (foldl_increment_last c s 1 ws Hfresh).
Qed.

Lemma foldl_count_words_distinct c sents :
  List.NoDup sents ->
  (forall s, In s sents -> tokens s <> [] /\ ~ In s (map fst c)) ->
  foldl (SpacyLlmTutorial.count_words tokens) c sents
  = (c ++ map (fun s => (s, length (tokens s))) sents)%list.
Proof.
  revert c. induction sents as [|s sents IH]; intros c Hnodup Hsents; cbn [foldl map].
  - now rewrite app_nil_r.
  - apply NoDup_cons_iff in Hnodup as [Hs Hnodup].
    destruct (Hsents s (or_introl eq_refl)) as [Htokens Hfresh].
    rewrite (count_words_fresh c s Hfresh Htokens), IH; [now rewrite <- app_assoc | assumption |].
    intros s' Hs'. destruct (Hsents s' (or_intror Hs')) as [Htokens' Hfresh'].
    split; [assumption |]. rewrite map_app. cbn [map fst]. intros Hin.
    apply in_app_or in Hin as [Hin | [<- | []]]; contradiction.
Qed.

(** With distinct sentences that all have tokens, which is what [doc.sents]
    yields, the counter lists the sentences in document order, each with its
    number of tokens. *)
Lemma sentence_scores_distinct sents :
  List.NoDup sents -> (forall s, In s sents -> tokens s <> []) ->
  SpacyLlmTutorial.sentence_scores tokens sents
  = map (fun s => (s, length (tokens s))) sents.
Proof.
  intros Hnodup Htokens. unfold SpacyLlmTutorial.sentence_scores.
  rewrite foldl_count_words_distinct; [reflexivity | assumption |].
  intros s Hs. split; [now apply Htokens | intros []].
Qed.

(** X22: the summary starts with the longest sentence of the document, the
    first of them in document order when several are equally long. *)
Theorem summary_starts_with_first_longest sents :
  List.NoDup sents ->
  (forall s, In s sents -> tokens s <> []) ->
  sents <> [] ->
  exists earlier a later,
    sents = (earlier ++ a :: later)%list
    /\ hd_error (SpacyLlmTutorial.summary_sentences tokens sents) = Some a
    /\ (forall x, In x earlier -> length (tokens x) < length (tokens a))
    /\ (forall x, In x later -> length (tokens x) <= length (tokens a)).
Proof.
  intros Hnodup Htokens Hnonempty.
  unfold SpacyLlmTutorial.summary_sentences, SpacyLlmTutorial.nlargest.
  rewrite (sentence_scores_distinct sents Hnodup Htokens).
  destruct (sorted_descending_head (map (fun s => (s, length (tokens s))) sents))
    as (before & y & after & Hsplit & Hhead & Hbefore & Hafter).
  { destruct sents; [now contradiction Hnonempty | discriminate]. }
  apply map_eq_app in Hsplit as (earlier & rest & -> & <- & Hrest).
  apply map_eq_cons in Hrest as (a & later & -> & <- & <-).
  exists earlier, a, later. split; [reflexivity |]. split.
  - destruct (SpacyLlmTutorial.sorted_descending _) as [|z zs]; [discriminate Hhead |].
    cbn [hd_error] in Hhead. injection Hhead as ->. reflexivity.
  - split.
    + intros x Hx. apply (Hbefore (x, length (tokens x))).
      apply in_map_iff. now exists x.
    + intros x Hx. apply (Hafter (x, length (tokens x))).
      apply in_map_iff. now exists x.
Qed.

(** X23: a document without sentences, or whose sentences have no token,
    gets the empty summary; a one-sentence document gets its sentence; a
    two-sentence document gets both sentences, the longer one first and the
    first one first when they are equally long. *)
Theorem summary_of_small_documents :
  (forall sents, (forall s, In s sents -> tokens s = []) ->
                 SpacyLlmTutorial.get_summarization_suggestion tokens str sents = "")
  /\ (forall s, tokens s <> [] ->
                SpacyLlmTutorial.get_summarization_suggestion tokens str [s] = str s)
  /\ (forall a b, a <> b -> tokens a <> [] -> tokens b <> [] ->
                  SpacyLlmTutorial.get_summarization_suggestion tokens str [a; b]
                  = if Nat.ltb (length (tokens a)) (length (tokens b))
                    then (str b ++ " " ++ str a)%string
                    else (str a ++ " " ++ str b)%string).
Proof.
  split; [| split].
  - intros sents Hempty.
    assert (Hscores : SpacyLlmTutorial.sentence_scores tokens sents = []).
    { destruct (SpacyLlmTutorial.sentence_scores tokens sents) as [|[k n] c] eqn:Hc;
        [reflexivity |].
      assert (Hkey : In k (map fst (SpacyLlmTutorial.sentence_scores tokens sents)))
        by (rewrite Hc; now left).
      apply in_keys_sentence_scores in Hkey as [Hin Htokens].
      now contradiction (Htokens (Hempty k Hin)). }
    unfold SpacyLlmTutorial.get_summarization_suggestion,
      SpacyLlmTutorial.summary_sentences.
    now rewrite Hscores.
  - intros s Htokens.
    unfold SpacyLlmTutorial.get_summarization_suggestion,
      SpacyLlmTutorial.summary_sentences.
    rewrite sentence_scores_distinct; [reflexivity | |].
    + constructor; [intros [] | constructor].
    + intros s' [<- | []]. assumption.
  - intros a b Hab Ha Hb.
    unfold SpacyLlmTutorial.get_summarization_suggestion,
      SpacyLlmTutorial.summary_sentences.
    rewrite sentence_scores_distinct.
    + unfold SpacyLlmTutorial.nlargest.
      cbn [map SpacyLlmTutorial.sorted_descending fold_right
           SpacyLlmTutorial.insert_descending snd].
      destruct (Nat.ltb (length (tokens a)) (length (tokens b))); reflexivity.
    + constructor; [intros [Heq | []]; now contradiction Hab |].
      constructor; [intros [] | constructor].
    + intros s [<- | [<- | []]]; assumption.
Qed.

End SummarizationFacts.

(** X22, witness: the second of three sentences is the longest. *)
Lemma summary_starts_with_first_longest_witness :
  List.NoDup SpacyLlmTutorial.sample_sents
  /\ hd_error (SpacyLlmTutorial.summary_sentences (fun s : list string => s)
                 SpacyLlmTutorial.sample_sents)
     = Some ["They"; "tried"; "very"; "hard"; "."]
  /\ exists earlier a later,
       SpacyLlmTutorial.sample_sents = (earlier ++ a :: later)%list
       /\ hd_error (SpacyLlmTutorial.summary_sentences (fun s : list string => s)
                      SpacyLlmTutorial.sample_sents) = Some a
       /\ (forall x, In x earlier -> length x < length a)
       /\ (forall x, In x later -> length x <= length a).
Proof.
  assert (Hnodup : List.NoDup SpacyLlmTutorial.sample_sents).
  { unfold SpacyLlmTutorial.sample_sents.
    constructor; [intros [H | [H | []]]; discriminate H |].
    constructor; [intros [H | []]; discriminate H |].
    constructor; [intros [] | constructor]. }
  split; [exact Hnodup |]. split; [reflexivity |].
  apply (summary_starts_with_first_longest (fun s : list string => s)
           SpacyLlmTutorial.sample_sents Hnodup).
  - intros s [<- | [<- | [<- | []]]]; discriminate.
  - discriminate.
Defined.

(** X23, witness: a two-sentence document whose second sentence is longer. *)
Lemma summary_of_small_documents_witness :
  ["Barcelona"; "lost"; "."] <> ["They"; "tried"; "very"; "hard"; "."]
  /\ SpacyLlmTutorial.get_summarization_suggestion (fun s : list string => s)
       SpacyLlmTutorial.sample_str
       [["Barcelona"; "lost"; "."]; ["They"; "tried"; "very"; "hard"; "."]]
     = "They tried very hard . Barcelona lost .".
Proof.
  split; [discriminate |].
  exact (proj2 (proj2 (summary_of_small_documents (fun s : list string => s)
                         SpacyLlmTutorial.sample_str))
           ["Barcelona"; "lost"; "."] ["They"; "tried"; "very"; "hard"; "."]
           ltac:(discriminate) ltac:(discriminate) ltac:(discriminate)).
Defined.
